(** * Argus: the Node2Vec + Isolation Forest detector

    A shallow embedding of [argus/detection/ml_detection.py]
    (class [Node2VecDetector]: [__init__], [train], [detect]) and the
    properties of its results.

    Python objects that the detector mutates or merely reads ([self], the
    graph handed to [detect], the wall clock, the process-wide random state,
    the logger) live in one explicit machine state; the code is written in a
    state-and-exception monad over it.  Floating-point scores are modelled
    by exact rationals. *)

From Stdlib Require Import QArith Qminmax Lqa Sorted Ascii.
From stdpp Require Import base option list strings gmap pretty.

Local Open Scope string_scope.
Local Open Scope list_scope.

(* ===================================================================== *)
(** ** Data model *)
(* ===================================================================== *)

(** Node identities are the UAV identifiers, strings. *)
Abbreviation Node := string (only parsing).

(** [str(node)] *)
Definition str (node : Node) : string := node.

(** Modelled from the spec: the UAV class ([argus.core.uav]) is not part of
    the detector's module; the detector reads only [is_legitimate]. *)
Record UAV := mkUAV {
  uav_id : string;
  is_legitimate : bool
}.

(** A value stored in a networkx node-attribute dict.  Only an object with
    an [is_legitimate] attribute answers [uav.is_legitimate]; any other
    value raises [AttributeError] there. *)
Inductive AttrValue :=
| AttrUAV (u : UAV)
| AttrOther (repr : string).

(** [nx.Graph]: nodes in insertion order, each with its attribute dict, and
    the undirected edges. *)
Record Graph := mkGraph {
  node_table : list (string * gmap string AttrValue);
  edge_list : list (string * string)
}.

(** An embedding vector, and the [wv] table of a fitted Word2Vec model. *)
Abbreviation Embedding := (list Q) (only parsing).
Abbreviation WordVectors := (gmap string (list Q)) (only parsing).

(** Exceptions, all subclasses of Python's [Exception]. *)
Inductive PyException :=
| KeyError (key : string)
| ValueError (msg : string)
| AttributeError (msg : string)
| RuntimeError (msg : string).

(** [repr(s)] of a Python [str], the characters being code points below
    256: the string goes between single quotes, or between double quotes
    when it holds a single quote and no double quote; the backslash and the
    chosen quote are escaped, tab, newline and carriage return are written
    [\t], [\n], [\r], and the other non-printable code points (below
    0x20, 0x7f to 0xa0, 0xad) as [\xhh]. *)
Definition single_quote : ascii := ascii_of_nat 39.
Definition double_quote : ascii := ascii_of_nat 34.
Definition backslash : ascii := ascii_of_nat 92.

Fixpoint contains_char (c : ascii) (s : string) : bool :=
  match s with
  | EmptyString => false
  | String c' rest => Ascii.eqb c c' || contains_char c rest
  end.

Definition repr_quote (s : string) : ascii :=
  if contains_char single_quote s && negb (contains_char double_quote s)
  then double_quote else single_quote.

Definition hex_digit (n : nat) : ascii :=
  if (n <? 10)%nat then ascii_of_nat (48 + n) else ascii_of_nat (87 + n).

Definition is_printable (c : ascii) : bool :=
  let n := nat_of_ascii c in
  negb ((n <? 32)%nat || ((127 <=? n)%nat && (n <=? 160)%nat) || (n =? 173)%nat).

Definition repr_char (quote c : ascii) : string :=
  let n := nat_of_ascii c in
  if Ascii.eqb c backslash then String backslash (String backslash EmptyString)
  else if Ascii.eqb c quote then String backslash (String quote EmptyString)
  else if (n =? 9)%nat then String backslash "t"
  else if (n =? 10)%nat then String backslash "n"
  else if (n =? 13)%nat then String backslash "r"
  else if is_printable c then String c EmptyString
  else String backslash
         (String "x"%char (String (hex_digit (n / 16)) (String (hex_digit (n mod 16)) EmptyString))).

Fixpoint repr_body (quote : ascii) (s : string) : string :=
  match s with
  | EmptyString => EmptyString
  | String c rest => repr_char quote c +:+ repr_body quote rest
  end.

Definition py_repr (s : string) : string :=
  String (repr_quote s) (repr_body (repr_quote s) s +:+ String (repr_quote s) EmptyString).

(** [str(e)]: the message of the exception; for a [KeyError] it is the
    [repr] of the key. *)
Definition exc_str (e : PyException) : string :=
  match e with
  | KeyError k => py_repr k
  | ValueError m => m
  | AttributeError m => m
  | RuntimeError m => m
  end.

Abbreviation PyResult A := (PyException + A)%type (only parsing).

(** A fitted [sklearn.ensemble.IsolationForest], seen through the two
    methods the detector calls on it. *)
Record IsolationForest := mkForest {
  decision_function : list (list Q) -> PyResult (list Q);
  predict : list (list Q) -> PyResult (list Z)
}.

(** Modelled from the spec: [DetectionResult] ([argus.evaluation]) is a
    plain value type; its fields are those of section 3 of the design and
    of the constructor calls in [detect]. *)
Record DetectionResult := mkResult {
  detector_name : string;
  timestamp : Q;
  anomalous_uav_ids : gset string;
  confidence_scores : gmap string Q;
  ground_truth : gmap string bool;
  detection_time : Q
}.

(** The attributes of a [Node2VecDetector] instance. *)
Record Detector := mkDetector {
  name : string;
  embedding_dim : nat;
  walk_length : nat;
  num_walks : nat;
  p : Q;
  q : Q;
  contamination : Q;
  isolation_forest : option IsolationForest;
  node2vec_model : option (gmap string (list Q));
  baseline_embeddings : gmap string (list Q);
  baseline_graphs : list Graph
}.

(** [Node2VecDetector.__init__] *)
Definition init (name : string) (embedding_dim walk_length num_walks : nat)
    (p q contamination : Q) : Detector :=
  {| name := name;
     embedding_dim := embedding_dim;
     walk_length := walk_length;
     num_walks := num_walks;
     p := p;
     q := q;
     contamination := contamination;
     isolation_forest := None;
     node2vec_model := None;
     baseline_embeddings := ∅;
     baseline_graphs := [] |}.

(** The constructor's defaults. *)
Definition default_detector : Detector :=
  init "node2vec" 128 30 200 1 1 (1 # 10).

(* ===================================================================== *)
(** ** Third-party libraries *)
(* ===================================================================== *)

(** The keyword arguments of [Node2Vec(graph, ...)].  [seed] is the
    library's optional seed for walk generation. *)
Record Node2VecArgs := mkN2VArgs {
  dimensions : nat;
  arg_walk_length : nat;
  arg_num_walks : nat;
  arg_p : Q;
  arg_q : Q;
  workers : nat;
  quiet : bool;
  seed : option Z
}.

(** What the detector uses of [node2vec] and [sklearn].  Walk generation
    and Word2Vec training read and advance the process-wide random state
    (Python's [random] and [numpy.random]); the isolation forest is
    fitted from its own [random_state]. *)
Record Backend := mkBackend {
  Node2Vec : Graph -> Node2VecArgs -> Z -> PyResult (list (list string)) * Z;
  node2vec_fit : Node2VecArgs -> list (list string) -> nat -> nat -> nat -> Z ->
                 PyResult (gmap string (list Q)) * Z;
  IsolationForest_fit : nat -> Q -> Z -> list (list Q) -> PyResult IsolationForest
}.

(* ===================================================================== *)
(** ** Machine state and the monad of the detector's code *)
(* ===================================================================== *)

Inductive LogLevel := DEBUG | INFO | WARNING | ERROR.

Record Machine := mkMachine {
  self : Detector;               (* the detector object *)
  graph : Graph;                 (* the graph object passed to [detect] *)
  wall_clock : nat -> Q;         (* successive readings of [time.time()] *)
  ticks : nat;                   (* readings consumed so far *)
  global_rng : Z;                (* process-wide random state *)
  log : list (LogLevel * string)
}.

Definition M (A : Type) : Type := Machine -> PyResult A * Machine.

Definition ret {A} (a : A) : M A := fun s => (inr a, s).
Definition raise {A} (e : PyException) : M A := fun s => (inl e, s).
Definition bind {A B} (m : M A) (k : A -> M B) : M B :=
  fun s => match m s with
           | (inr a, s') => k a s'
           | (inl e, s') => (inl e, s')
           end.

(** [try: body except Exception as e: handler e] *)
Definition try_except {A} (body : M A) (handler : PyException -> M A) : M A :=
  fun s => match body s with
           | (inl e, s') => handler e s'
           | (inr a, s') => (inr a, s')
           end.

Notation "x <~ m ; k" := (bind m (fun x => k))
  (at level 100, m at next level, right associativity,
   format "x  <~  m ;  '/' k").
Notation "m ;;; k" := (bind m (fun _ => k))
  (at level 100, right associativity).

Definition lift {A} (r : PyResult A) : M A := fun s => (r, s).

Definition get_self : M Detector := fun s => (inr (self s), s).
Definition get_graph : M Graph := fun s => (inr (graph s), s).

Definition set_self (d : Detector) : M unit :=
  fun s => (inr tt,
            {| self := d; graph := graph s; wall_clock := wall_clock s;
               ticks := ticks s; global_rng := global_rng s; log := log s |}).

(** [time.time()] *)
Definition time_time : M Q :=
  fun s => (inr (wall_clock s (ticks s)),
            {| self := self s; graph := graph s; wall_clock := wall_clock s;
               ticks := S (ticks s); global_rng := global_rng s; log := log s |}).

Definition logger (lvl : LogLevel) (msg : string) : M unit :=
  fun s => (inr tt,
            {| self := self s; graph := graph s; wall_clock := wall_clock s;
               ticks := ticks s; global_rng := global_rng s;
               log := log s ++ [(lvl, msg)] |}).

(** A library call that draws from the process-wide random state. *)
Definition with_global_rng {A} (f : Z -> PyResult A * Z) : M A :=
  fun s => let '(r, rng) := f (global_rng s) in
           (r,
            {| self := self s; graph := graph s; wall_clock := wall_clock s;
               ticks := ticks s; global_rng := rng; log := log s |}).

(* ===================================================================== *)
(** ** Reading the graph and the word vectors *)
(* ===================================================================== *)

(** [graph.nodes()] of a graph value *)
Definition nodes_of (g : Graph) : list string := (node_table g).*1.

(** [graph.nodes[node]] of a graph value *)
Fixpoint node_data_of (tbl : list (string * gmap string AttrValue)) (node : string)
    : option (gmap string AttrValue) :=
  match tbl with
  | [] => None
  | (n, d) :: rest => if String.eqb n node then Some d else node_data_of rest node
  end.

(** [graph.nodes()] and [graph.nodes[node]] on the graph passed to [detect] *)
Definition graph_nodes : M (list string) :=
  fun s => (inr (nodes_of (graph s)), s).

Definition graph_node_data (node : string) : M (gmap string AttrValue) :=
  fun s => match node_data_of (node_table (graph s)) node with
           | Some d => (inr d, s)
           | None => (inl (KeyError node), s)
           end.

(** [model.wv[key]] *)
Definition wv_getitem (wv : gmap string (list Q)) (key : string) : M (list Q) :=
  match wv !! key with
  | Some e => ret e
  | None => raise (KeyError key)
  end.

(** [uav.is_legitimate] *)
Definition get_is_legitimate (v : AttrValue) : M bool :=
  match v with
  | AttrUAV u => ret (is_legitimate u)
  | AttrOther r => raise (AttributeError (r +:+ " has no attribute 'is_legitimate'"))
  end.

(** [a.min()] and [a.max()] of a numpy array; both raise on an empty one. *)
Definition array_min (a : list Q) : M Q :=
  match a with
  | [] => raise (ValueError "zero-size array to reduction operation minimum which has no identity")
  | x :: xs => ret (foldl Qmin x xs)
  end.

Definition array_max (a : list Q) : M Q :=
  match a with
  | [] => raise (ValueError "zero-size array to reduction operation maximum which has no identity")
  | x :: xs => ret (foldl Qmax x xs)
  end.

(** The arguments both [train] and [detect] pass to [Node2Vec]: the
    detector's hyper-parameters, [workers=1], [quiet=True], and no seed. *)
Definition node2vec_args (d : Detector) : Node2VecArgs :=
  {| dimensions := embedding_dim d;
     arg_walk_length := walk_length d;
     arg_num_walks := num_walks d;
     arg_p := p d;
     arg_q := q d;
     workers := 1;
     quiet := true;
     seed := None |}.

(* ===================================================================== *)
(** ** [Node2VecDetector.train] *)
(* ===================================================================== *)

Definition with_baseline_graphs (gs : list Graph) (d : Detector) : Detector :=
  {| name := name d; embedding_dim := embedding_dim d; walk_length := walk_length d;
     num_walks := num_walks d; p := p d; q := q d; contamination := contamination d;
     isolation_forest := isolation_forest d; node2vec_model := node2vec_model d;
     baseline_embeddings := baseline_embeddings d; baseline_graphs := gs |}.

Definition with_node2vec_model (m : option (gmap string (list Q))) (d : Detector) : Detector :=
  {| name := name d; embedding_dim := embedding_dim d; walk_length := walk_length d;
     num_walks := num_walks d; p := p d; q := q d; contamination := contamination d;
     isolation_forest := isolation_forest d; node2vec_model := m;
     baseline_embeddings := baseline_embeddings d; baseline_graphs := baseline_graphs d |}.

Definition with_baseline_embeddings (b : gmap string (list Q)) (d : Detector) : Detector :=
  {| name := name d; embedding_dim := embedding_dim d; walk_length := walk_length d;
     num_walks := num_walks d; p := p d; q := q d; contamination := contamination d;
     isolation_forest := isolation_forest d; node2vec_model := node2vec_model d;
     baseline_embeddings := b; baseline_graphs := baseline_graphs d |}.

Definition with_isolation_forest (f : option IsolationForest) (d : Detector) : Detector :=
  {| name := name d; embedding_dim := embedding_dim d; walk_length := walk_length d;
     num_walks := num_walks d; p := p d; q := q d; contamination := contamination d;
     isolation_forest := f; node2vec_model := node2vec_model d;
     baseline_embeddings := baseline_embeddings d; baseline_graphs := baseline_graphs d |}.

(** [self.attr = value] *)
Definition modify_self (f : Detector -> Detector) : M unit :=
  d <~ get_self; set_self (f d).

Section Code.

Variable B : Backend.

(** Lines 114-121: the loop that reads every node's embedding into
    [self.baseline_embeddings] and [embeddings_list]. *)
Fixpoint train_embeddings_loop (wv : gmap string (list Q)) (nodes : list string)
    (embeddings_list : list (list Q)) : M (list (list Q)) :=
  match nodes with
  | [] => ret embeddings_list
  | node :: rest =>
      embeddings_list' <~
        try_except
          (embedding <~ wv_getitem wv (str node);
           d <~ get_self;
           set_self (with_baseline_embeddings
                       (<[str node := embedding]> (baseline_embeddings d)) d) ;;;
           ret (embeddings_list ++ [embedding]))
          (fun e => match e with
                    | KeyError _ =>
                        logger WARNING ("No embedding for node " +:+ str node) ;;;
                        ret embeddings_list
                    | _ => raise e
                    end);
      train_embeddings_loop wv rest embeddings_list'
  end.

Definition train (clean_graphs : list Graph) : M unit :=
  modify_self (with_baseline_graphs clean_graphs) ;;;
  match last clean_graphs with
  | None =>
      logger WARNING "No clean graphs provided for training"
  | Some training_graph =>
      if (length (nodes_of training_graph) =? 0)%nat then
        logger WARNING "Training graph is empty"
      else
        logger INFO ("Training Node2Vec on graph with "
                     +:+ pretty (length (nodes_of training_graph)) +:+ " nodes...") ;;;
        try_except
          (d <~ get_self;
           node2vec <~ with_global_rng (Node2Vec B training_graph (node2vec_args d));
           model <~ with_global_rng (node2vec_fit B (node2vec_args d) node2vec 10 1 4);
           modify_self (with_node2vec_model (Some model)) ;;;
           embeddings_list <~ train_embeddings_loop model (nodes_of training_graph) [];
           match embeddings_list with
           | [] => logger ERROR "No embeddings generated"
           | _ :: _ =>
               d <~ get_self;
               forest <~ lift (IsolationForest_fit B 100 (contamination d) 42 embeddings_list);
               modify_self (with_isolation_forest (Some forest)) ;;;
               logger INFO ("Node2Vec detector trained on "
                            +:+ pretty (length embeddings_list) +:+ " node embeddings")
           end)
          (fun e =>
             logger ERROR ("Error training Node2Vec: " +:+ exc_str e) ;;;
             modify_self (with_isolation_forest None))
  end.

(* ===================================================================== *)
(** ** [Node2VecDetector.detect] *)
(* ===================================================================== *)

(** Lines 196-202: the nodes that have an embedding, with their embeddings. *)
Fixpoint detect_embeddings_loop (wv : gmap string (list Q)) (nodes : list string)
    (embeddings_list : list (list Q)) (node_list : list string)
    : M (list (list Q) * list string) :=
  match nodes with
  | [] => ret (embeddings_list, node_list)
  | node :: rest =>
      acc <~
        try_except
          (embedding <~ wv_getitem wv (str node);
           ret (embeddings_list ++ [embedding], node_list ++ [node]))
          (fun e => match e with
                    | KeyError _ =>
                        logger WARNING ("No embedding for node " +:+ str node) ;;;
                        ret (embeddings_list, node_list)
                    | _ => raise e
                    end);
      detect_embeddings_loop wv rest acc.1 acc.2
  end.

(** Lines 228-231 *)
Definition normalized_score (score min_score score_range : Q) : Q :=
  if Qlt_le_dec 0 score_range
  then (1 - (score - min_score) / score_range)%Q
  else (1 # 2)%Q.

(** Lines 226-237: the loop over [zip(node_list, anomaly_scores, predictions)],
    which stops with the shortest of the three. *)
Fixpoint score_loop (min_score score_range : Q)
    (node_list : list string) (anomaly_scores : list Q) (predictions : list Z)
    (confidence_scores : gmap string Q) (anomalous_uav_ids : gset string)
    : gmap string Q * gset string :=
  match node_list, anomaly_scores, predictions with
  | node :: nl, score :: sl, pred :: pl =>
      let confidence_scores' :=
        <[node := normalized_score score min_score score_range]> confidence_scores in
      let anomalous_uav_ids' :=
        if (pred =? -1)%Z then {[node]} ∪ anomalous_uav_ids else anomalous_uav_ids in
      score_loop min_score score_range nl sl pl confidence_scores' anomalous_uav_ids'
  | _, _, _ => (confidence_scores, anomalous_uav_ids)
  end.

(** Lines 240-246 *)
Fixpoint ground_truth_loop (nodes : list string) (ground_truth : gmap string bool)
    : M (gmap string bool) :=
  match nodes with
  | [] => ret ground_truth
  | node :: rest =>
      node_data <~ graph_node_data node;
      ground_truth' <~
        match node_data !! "uav" with
        | Some uav =>
            v <~ get_is_legitimate uav;
            ret (<[node := v]> ground_truth)
        | None => ret (<[node := true]> ground_truth)
        end;
      ground_truth_loop rest ground_truth'
  end.

(** The result built at lines 167-175, 206-214 and 265-273. *)
Definition return_empty (start_time : Q) : M DetectionResult :=
  now <~ time_time;
  let detection_time := (now - start_time)%Q in
  d <~ get_self;
  ts <~ time_time;
  ret {| detector_name := name d;
         timestamp := ts;
         anomalous_uav_ids := ∅;
         confidence_scores := ∅;
         ground_truth := ∅;
         detection_time := detection_time |}.

Definition detect : M DetectionResult :=
  start_time <~ time_time;
  nodes <~ graph_nodes;
  d <~ get_self;
  match (length nodes =? 0)%nat, isolation_forest d with
  | true, _ | false, None => return_empty start_time
  | false, Some forest =>
      try_except
        (g <~ get_graph;
         node2vec <~ with_global_rng (Node2Vec B g (node2vec_args d));
         current_model <~ with_global_rng (node2vec_fit B (node2vec_args d) node2vec 10 1 4);
         nodes <~ graph_nodes;
         found <~ detect_embeddings_loop current_model nodes [] [];
         let '(embeddings_list, node_list) := found in
         match embeddings_list with
         | [] =>
             logger WARNING "No embeddings generated for current graph" ;;;
             return_empty start_time
         | _ :: _ =>
             anomaly_scores <~ lift (decision_function forest embeddings_list);
             predictions <~ lift (predict forest embeddings_list);
             min_score <~ array_min anomaly_scores;
             max_score <~ array_max anomaly_scores;
             let score_range := (max_score - min_score)%Q in
             let '(confidence_scores, anomalous_uav_ids) :=
               score_loop min_score score_range node_list anomaly_scores predictions ∅ ∅ in
             nodes <~ graph_nodes;
             ground_truth <~ ground_truth_loop nodes ∅;
             now <~ time_time;
             let detection_time := (now - start_time)%Q in
             logger DEBUG ("Node2Vec detection: "
                           +:+ pretty (size anomalous_uav_ids) +:+ " anomalies detected") ;;;
             ts <~ time_time;
             ret {| detector_name := name d;
                    timestamp := ts;
                    anomalous_uav_ids := anomalous_uav_ids;
                    confidence_scores := confidence_scores;
                    ground_truth := ground_truth;
                    detection_time := detection_time |}
         end)
        (fun e =>
           logger ERROR ("Error in Node2Vec detection: " +:+ exc_str e) ;;;
           return_empty start_time)
  end.

End Code.

(* ===================================================================== *)
(** ** What a run computes *)
(* ===================================================================== *)

(** The embeddings and nodes the loop of lines 196-202 collects. *)
Definition found_embeddings (wv : gmap string (list Q)) (nodes : list string) : list (list Q) :=
  omap (fun node => wv !! str node) nodes.

Definition found_nodes (wv : gmap string (list Q)) (nodes : list string) : list string :=
  filter (fun node => is_Some (wv !! str node)) nodes.

(** The batch scored by a run: the nodes with an embedding, their raw
    decision-function values and the forest's predictions.  [None] when the
    run returns before scoring or a library call raises. *)
Definition detect_batch (B : Backend) (d : Detector) (g : Graph) (rng : Z)
    : option (list string * list Q * list Z) :=
  match nodes_of g, isolation_forest d with
  | _ :: _, Some forest =>
      match Node2Vec B g (node2vec_args d) rng with
      | (inr node2vec, rng1) =>
          match node2vec_fit B (node2vec_args d) node2vec 10 1 4 rng1 with
          | (inr current_model, _) =>
              match found_embeddings current_model (nodes_of g) with
              | [] => None
              | (_ :: _) as embeddings_list =>
                  match decision_function forest embeddings_list,
                        predict forest embeddings_list with
                  | inr anomaly_scores, inr predictions =>
                      Some (found_nodes current_model (nodes_of g),
                            anomaly_scores, predictions)
                  | _, _ => None
                  end
              end
          | (inl _, _) => None
          end
      | (inl _, _) => None
      end
  | _, _ => None
  end.

(** The ground-truth label of one node, when reading it does not raise. *)
Definition label_of (g : Graph) (node : string) : option bool :=
  match node_data_of (node_table g) node with
  | None => None
  | Some node_data =>
      match node_data !! "uav" with
      | None => Some true
      | Some (AttrUAV u) => Some (is_legitimate u)
      | Some (AttrOther _) => None
      end
  end.

Fixpoint labels_from (g : Graph) (nodes : list string) (acc : gmap string bool)
    : option (gmap string bool) :=
  match nodes with
  | [] => Some acc
  | node :: rest =>
      match label_of g node with
      | Some b => labels_from g rest (<[node := b]> acc)
      | None => None
      end
  end.

(** The three collections of the result. *)
Definition detect_payload (B : Backend) (d : Detector) (g : Graph) (rng : Z)
    : gset string * gmap string Q * gmap string bool :=
  match detect_batch B d g rng with
  | Some (node_list, x :: xs, predictions) =>
      match labels_from g (nodes_of g) ∅ with
      | Some ground_truth =>
          let min_score := foldl Qmin x xs in
          let max_score := foldl Qmax x xs in
          let cf := score_loop min_score (max_score - min_score)%Q
                               node_list (x :: xs) predictions ∅ ∅ in
          (cf.2, cf.1, ground_truth)
      | None => (∅, ∅, ∅)
      end
  | _ => (∅, ∅, ∅)
  end.

(** [self.baseline_embeddings] after the loop of lines 115-121. *)
Definition learn_baseline (wv : gmap string (list Q)) (nodes : list string)
    (b : gmap string (list Q)) : gmap string (list Q) :=
  foldl (fun acc node => match wv !! str node with
                         | Some e => <[str node := e]> acc
                         | None => acc
                         end) b nodes.

(** The detector and the random state after training on one graph. *)
Definition train_on (B : Backend) (g : Graph) (d : Detector) (rng : Z) : Detector * Z :=
  match nodes_of g with
  | [] => (d, rng)
  | _ :: _ =>
      match Node2Vec B g (node2vec_args d) rng with
      | (inl _, rng1) => (with_isolation_forest None d, rng1)
      | (inr node2vec, rng1) =>
          match node2vec_fit B (node2vec_args d) node2vec 10 1 4 rng1 with
          | (inl _, rng2) => (with_isolation_forest None d, rng2)
          | (inr model, rng2) =>
              let d1 := with_baseline_embeddings
                          (learn_baseline model (nodes_of g) (baseline_embeddings d))
                          (with_node2vec_model (Some model) d) in
              match found_embeddings model (nodes_of g) with
              | [] => (d1, rng2)
              | (_ :: _) as embeddings_list =>
                  match IsolationForest_fit B 100 (contamination d) 42 embeddings_list with
                  | inr forest => (with_isolation_forest (Some forest) d1, rng2)
                  | inl _ => (with_isolation_forest None d1, rng2)
                  end
              end
          end
      end
  end.

Definition train_outcome (B : Backend) (clean_graphs : list Graph) (d : Detector) (rng : Z)
    : Detector * Z :=
  match last clean_graphs with
  | None => (with_baseline_graphs clean_graphs d, rng)
  | Some training_graph =>
      train_on B training_graph (with_baseline_graphs clean_graphs d) rng
  end.

(** [train] followed by [detect]. *)
Definition train_then_detect (B : Backend) (clean_graphs : list Graph) : M DetectionResult :=
  train B clean_graphs ;;; detect B.

(** The ground-truth loop of lines 240-246 as a function of the graph:
    the map it builds, or the exception that reading a node raises. *)
Fixpoint read_labels (g : Graph) (nodes : list string) (ground_truth : gmap string bool)
    : PyResult (gmap string bool) :=
  match nodes with
  | [] => inr ground_truth
  | node :: rest =>
      match node_data_of (node_table g) node with
      | None => inl (KeyError node)
      | Some node_data =>
          match node_data !! "uav" with
          | None => read_labels g rest (<[node := true]> ground_truth)
          | Some (AttrUAV u) => read_labels g rest (<[node := is_legitimate u]> ground_truth)
          | Some (AttrOther r) =>
              inl (AttributeError (r +:+ " has no attribute 'is_legitimate'"))
          end
      end
  end.

(** The warnings of the loop of lines 196-202: one for each node without an
    embedding, in node order. *)
Definition missing_warnings (wv : gmap string (list Q)) (nodes : list string)
    : list (LogLevel * string) :=
  (fun node => (WARNING, "No embedding for node " +:+ str node))
    <$> filter (fun node => wv !! str node = None) nodes.

(** The record written by the handler of lines 263-264. *)
Definition error_record (e : PyException) : LogLevel * string :=
  (ERROR, "Error in Node2Vec detection: " +:+ exc_str e).

(** The records a run of [detect] appends to the log. *)
Definition detect_log (B : Backend) (d : Detector) (g : Graph) (rng : Z)
    : list (LogLevel * string) :=
  match nodes_of g, isolation_forest d with
  | _ :: _, Some forest =>
      match Node2Vec B g (node2vec_args d) rng with
      | (inl e, _) => [error_record e]
      | (inr node2vec, rng1) =>
          match node2vec_fit B (node2vec_args d) node2vec 10 1 4 rng1 with
          | (inl e, _) => [error_record e]
          | (inr current_model, _) =>
              missing_warnings current_model (nodes_of g) ++
              match found_embeddings current_model (nodes_of g) with
              | [] => [(WARNING, "No embeddings generated for current graph")]
              | (_ :: _) as embeddings_list =>
                  match decision_function forest embeddings_list with
                  | inl e => [error_record e]
                  | inr anomaly_scores =>
                      match predict forest embeddings_list with
                      | inl e => [error_record e]
                      | inr predictions =>
                          match anomaly_scores with
                          | [] =>
                              [error_record
                                 (ValueError "zero-size array to reduction operation minimum which has no identity")]
                          | x :: xs =>
                              match read_labels g (nodes_of g) ∅ with
                              | inl e => [error_record e]
                              | inr _ =>
                                  let min_score := foldl Qmin x xs in
                                  let max_score := foldl Qmax x xs in
                                  let cf := score_loop min_score (max_score - min_score)%Q
                                              (found_nodes current_model (nodes_of g))
                                              (x :: xs) predictions ∅ ∅ in
                                  [(DEBUG, "Node2Vec detection: "
                                           +:+ pretty (size cf.2) +:+ " anomalies detected")]
                              end
                          end
                      end
                  end
              end
          end
      end
  | _, _ => []
  end.

(* ===================================================================== *)
(** ** Predicates of the statements *)
(* ===================================================================== *)

(** The objects a computation may read but leaves as they are. *)
Definition preserves (s s' : Machine) : Prop :=
  self s' = self s /\ graph s' = graph s /\ wall_clock s' = wall_clock s /\
  ticks s' = ticks s /\ global_rng s' = global_rng s.

(** The state after a run: only the clock position, the random state and
    the log may differ. *)
Definition frame (consumed : nat) (s s' : Machine) : Prop :=
  self s' = self s /\ graph s' = graph s /\ wall_clock s' = wall_clock s /\
  ticks s' = (consumed + ticks s)%nat.

(** Minimum and maximum of a batch of raw scores. *)
Definition is_min (lo : Q) (l : list Q) : Prop := lo ∈ l /\ forall x, x ∈ l -> (lo <= x)%Q.
Definition is_max (hi : Q) (l : list Q) : Prop := hi ∈ l /\ forall x, x ∈ l -> (x <= hi)%Q.

(** A result with nothing flagged, no score and no ground truth. *)
Definition is_empty_result (r : DetectionResult) : Prop :=
  anomalous_uav_ids r = ∅ /\ confidence_scores r = ∅ /\ ground_truth r = ∅.

(** The ways a run can fail after the entry guard: a library call raises,
    no node has an embedding, the batch of scores is empty, or a node's
    [uav] attribute has no [is_legitimate]. *)
Inductive internal_failure (B : Backend) (s : Machine) : Prop :=
| walks_raise e rng1 :
    Node2Vec B (graph s) (node2vec_args (self s)) (global_rng s) = (inl e, rng1) ->
    internal_failure B s
| fit_raises walks rng1 e rng2 :
    Node2Vec B (graph s) (node2vec_args (self s)) (global_rng s) = (inr walks, rng1) ->
    node2vec_fit B (node2vec_args (self s)) walks 10 1 4 rng1 = (inl e, rng2) ->
    internal_failure B s
| no_embedding walks rng1 model rng2 :
    Node2Vec B (graph s) (node2vec_args (self s)) (global_rng s) = (inr walks, rng1) ->
    node2vec_fit B (node2vec_args (self s)) walks 10 1 4 rng1 = (inr model, rng2) ->
    found_embeddings model (nodes_of (graph s)) = [] ->
    internal_failure B s
| decision_function_raises forest walks rng1 model rng2 e :
    isolation_forest (self s) = Some forest ->
    Node2Vec B (graph s) (node2vec_args (self s)) (global_rng s) = (inr walks, rng1) ->
    node2vec_fit B (node2vec_args (self s)) walks 10 1 4 rng1 = (inr model, rng2) ->
    decision_function forest (found_embeddings model (nodes_of (graph s))) = inl e ->
    internal_failure B s
| predict_raises forest walks rng1 model rng2 e :
    isolation_forest (self s) = Some forest ->
    Node2Vec B (graph s) (node2vec_args (self s)) (global_rng s) = (inr walks, rng1) ->
    node2vec_fit B (node2vec_args (self s)) walks 10 1 4 rng1 = (inr model, rng2) ->
    predict forest (found_embeddings model (nodes_of (graph s))) = inl e ->
    internal_failure B s
| no_scores forest walks rng1 model rng2 :
    isolation_forest (self s) = Some forest ->
    Node2Vec B (graph s) (node2vec_args (self s)) (global_rng s) = (inr walks, rng1) ->
    node2vec_fit B (node2vec_args (self s)) walks 10 1 4 rng1 = (inr model, rng2) ->
    decision_function forest (found_embeddings model (nodes_of (graph s))) = inr [] ->
    internal_failure B s
| label_raises :
    labels_from (graph s) (nodes_of (graph s)) ∅ = None ->
    internal_failure B s.

(** The invariant of section 3 as it is worded: every node of the graph is
    a key of both maps, or the graph is empty and so are both maps. *)
Definition covers_every_node (g : Graph) (r : DetectionResult) : Prop :=
  (forall node, node ∈ nodes_of g ->
     is_Some (confidence_scores r !! node) /\ is_Some (ground_truth r !! node)) \/
  (nodes_of g = [] /\ confidence_scores r = ∅ /\ ground_truth r = ∅).

(** The three degenerate trainings: no graph, a last graph without nodes,
    or a last graph none of whose nodes gets an embedding. *)
Definition degenerate_training (B : Backend) (clean_graphs : list Graph)
    (d : Detector) (rng : Z) : Prop :=
  clean_graphs = [] \/
  (exists g, last clean_graphs = Some g /\ nodes_of g = []) \/
  (exists g walks rng1 model rng2,
     last clean_graphs = Some g /\
     Node2Vec B g (node2vec_args d) rng = (inr walks, rng1) /\
     node2vec_fit B (node2vec_args d) walks 10 1 4 rng1 = (inr model, rng2) /\
     found_embeddings model (nodes_of g) = []).

(** A library call of [detect] raises [e], after the loop over the nodes
    has written the warnings [ws]. *)
Inductive library_raises (B : Backend) (s : Machine)
    : PyException -> list (LogLevel * string) -> Prop :=
| raises_in_walks forest e rng1 :
    nodes_of (graph s) <> [] ->
    isolation_forest (self s) = Some forest ->
    Node2Vec B (graph s) (node2vec_args (self s)) (global_rng s) = (inl e, rng1) ->
    library_raises B s e []
| raises_in_fit forest walks rng1 e rng2 :
    nodes_of (graph s) <> [] ->
    isolation_forest (self s) = Some forest ->
    Node2Vec B (graph s) (node2vec_args (self s)) (global_rng s) = (inr walks, rng1) ->
    node2vec_fit B (node2vec_args (self s)) walks 10 1 4 rng1 = (inl e, rng2) ->
    library_raises B s e []
| raises_in_decision_function forest walks rng1 model rng2 e :
    isolation_forest (self s) = Some forest ->
    Node2Vec B (graph s) (node2vec_args (self s)) (global_rng s) = (inr walks, rng1) ->
    node2vec_fit B (node2vec_args (self s)) walks 10 1 4 rng1 = (inr model, rng2) ->
    found_embeddings model (nodes_of (graph s)) <> [] ->
    decision_function forest (found_embeddings model (nodes_of (graph s))) = inl e ->
    library_raises B s e (missing_warnings model (nodes_of (graph s)))
| raises_in_predict forest walks rng1 model rng2 scores e :
    isolation_forest (self s) = Some forest ->
    Node2Vec B (graph s) (node2vec_args (self s)) (global_rng s) = (inr walks, rng1) ->
    node2vec_fit B (node2vec_args (self s)) walks 10 1 4 rng1 = (inr model, rng2) ->
    found_embeddings model (nodes_of (graph s)) <> [] ->
    decision_function forest (found_embeddings model (nodes_of (graph s))) = inr scores ->
    predict forest (found_embeddings model (nodes_of (graph s))) = inl e ->
    library_raises B s e (missing_warnings model (nodes_of (graph s))).

(** A library call of [train] raises on the last graph [g]: walk
    generation, Word2Vec training, or the fitting of the forest. *)
Inductive training_raises (B : Backend) (g : Graph) (d : Detector) (rng : Z) : Prop :=
| training_walks_raise e rng1 :
    Node2Vec B g (node2vec_args d) rng = (inl e, rng1) ->
    training_raises B g d rng
| training_fit_raises walks rng1 e rng2 :
    Node2Vec B g (node2vec_args d) rng = (inr walks, rng1) ->
    node2vec_fit B (node2vec_args d) walks 10 1 4 rng1 = (inl e, rng2) ->
    training_raises B g d rng
| training_forest_raises walks rng1 model rng2 e :
    Node2Vec B g (node2vec_args d) rng = (inr walks, rng1) ->
    node2vec_fit B (node2vec_args d) walks 10 1 4 rng1 = (inr model, rng2) ->
    found_embeddings model (nodes_of g) <> [] ->
    IsolationForest_fit B 100 (contamination d) 42 (found_embeddings model (nodes_of g))
    = inl e ->
    training_raises B g d rng.

(** The hyper-parameters fixed at construction. *)
Definition hyper_parameters (d : Detector) : string * nat * nat * nat * Q * Q * Q :=
  (name d, embedding_dim d, walk_length d, num_walks d, p d, q d, contamination d).

(* ===================================================================== *)
(** ** The attack callback of the live visualization *)
(* ===================================================================== *)

(** What [inject_attack_callback] ([examples/live_visualization.py], lines
    50-62) asks of the injector: [injector.inject(swarm, attack,
    current_time)] and [injector.remove_phantoms(swarm)]. *)
Inductive CallbackEvent :=
| InjectPhantoms (current_time : Q)
| RemovePhantoms (current_time : Q).

Section LiveVisualization.

(** [attack.is_active], of the attack scenario class, and the attack's
    [start_time] and [duration]. *)
Variable is_active : Q -> bool.
Variables start_time duration : Q.

(** One call of the callback: [current_time] is the reading of
    [swarm.simulation_time], [attack_injected] the flag of the enclosing
    [main]; the result is the calls made to the injector and the new flag. *)
Definition inject_attack_callback (current_time : Q) (attack_injected : bool)
    : list CallbackEvent * bool :=
  let '(injected, attack_injected) :=
    if is_active current_time && negb attack_injected
    then ([InjectPhantoms current_time], true)
    else ([], attack_injected) in
  let '(removed, attack_injected) :=
    if Qle_bool (start_time + duration) current_time && attack_injected
    then ([RemovePhantoms current_time], false)
    else ([], attack_injected) in
  (injected ++ removed, attack_injected).

(** The callback called once per frame, at the simulation times read. *)
Fixpoint callback_frames (times : list Q) (attack_injected : bool)
    : list CallbackEvent * bool :=
  match times with
  | [] => ([], attack_injected)
  | current_time :: rest =>
      let '(events, attack_injected) := inject_attack_callback current_time attack_injected in
      let '(later, attack_injected) := callback_frames rest attack_injected in
      (events ++ later, attack_injected)
  end.

End LiveVisualization.

(** Injections and removals alternate, from the given state of the flag;
    the result is the flag after the last call. *)
Fixpoint alternating (attack_injected : bool) (trace : list CallbackEvent) : option bool :=
  match trace with
  | [] => Some attack_injected
  | InjectPhantoms _ :: rest => if attack_injected then None else alternating true rest
  | RemovePhantoms _ :: rest => if attack_injected then alternating false rest else None
  end.

(** Modelled from the spec: [AttackScenario.is_active] ([argus.attacks]) is
    not part of the sources; [is_active(t)] holds iff
    [start_time <= t < start_time + duration]. *)
Definition scenario_is_active (start_time duration t : Q) : bool :=
  Qle_bool start_time t && negb (Qle_bool (start_time + duration) t).

(* ===================================================================== *)
(** ** A small concrete backend, to run the code *)
(* ===================================================================== *)

Module Toy.

(** One walk per node. *)
Definition walks (g : Graph) (a : Node2VecArgs) (rng : Z)
    : PyResult (list (list string)) * Z :=
  (inr ((fun n => [str n]) <$> nodes_of g), rng).

(** A one-dimensional embedding: the token's length scaled by the
    random number drawn for the training run. *)
Definition embed (r : Z) (w : list string) : option (string * list Q) :=
  match w with
  | [] => None
  | tok :: _ => Some (tok, [inject_Z (r * Z.of_nat (String.length tok))])
  end.

(** Training draws from the seed when one is given, and from the
    process-wide random state (which it advances) otherwise. *)
Definition fit (a : Node2VecArgs) (ws : list (list string)) (window min_count batch_words : nat)
    (rng : Z) : PyResult (gmap string (list Q)) * Z :=
  match ws with
  | [] => (inl (RuntimeError "you must first build vocabulary before training the model"), rng)
  | _ =>
      match seed a with
      | Some sd => (inr (list_to_map (omap (embed sd) ws)), rng)
      | None => (inr (list_to_map (omap (embed rng) ws)), (rng + 1)%Z)
      end
  end.

Definition raw (offset : Q) (e : list Q) : Q :=
  match e with
  | [] => 0%Q
  | x :: _ => (offset - x)%Q
  end.

(** A forest that scores a point by its first coordinate against an
    offset, and predicts an outlier below zero. *)
Definition forest (offset : Q) : IsolationForest :=
  {| decision_function := fun X => inr (raw offset <$> X);
     predict := fun X =>
       inr ((fun e => if Qlt_le_dec (raw offset e) 0 then (-1)%Z else 1%Z) <$> X) |}.

Definition forest_fit (n_estimators : nat) (contamination : Q) (random_state : Z)
    (X : list (list Q)) : PyResult IsolationForest :=
  inr (forest (inject_Z random_state / 10)%Q).

Definition backend : Backend :=
  {| Node2Vec := walks; node2vec_fit := fit; IsolationForest_fit := forest_fit |}.

(** A backend whose walk generation raises, and one whose Word2Vec
    vocabulary misses every token longer than two characters. *)
Definition failing_backend : Backend :=
  {| Node2Vec := fun _ _ rng => (inl (ValueError "walk generation failed"), rng);
     node2vec_fit := fit; IsolationForest_fit := forest_fit |}.

Definition sparse_fit (a : Node2VecArgs) (ws : list (list string))
    (window min_count batch_words : nat) (rng : Z)
    : PyResult (gmap string (list Q)) * Z :=
  fit a (filter (fun w => length w = 1%nat /\ Forall (fun tok => (String.length tok <= 2)%nat) w) ws)
      window min_count batch_words rng.

Definition sparse_backend : Backend :=
  {| Node2Vec := walks; node2vec_fit := sparse_fit; IsolationForest_fit := forest_fit |}.

(** A backend whose walk generation raises a [KeyError]. *)
Definition missing_key_backend : Backend :=
  {| Node2Vec := fun _ _ rng => (inl (KeyError "missing"), rng);
     node2vec_fit := fit; IsolationForest_fit := forest_fit |}.

(** A backend whose forest cannot be fitted. *)
Definition unfit_backend : Backend :=
  {| Node2Vec := walks; node2vec_fit := fit;
     IsolationForest_fit := fun _ _ _ _ => inl (ValueError "cannot fit the forest") |}.

Definition uav_node (id : string) (legit : bool) : string * gmap string AttrValue :=
  (id, {[ "uav" := AttrUAV (mkUAV id legit) ]}).

Definition g3 : Graph :=
  {| node_table := [uav_node "a" true; uav_node "bb" true; ("ghost", ∅)];
     edge_list := [("a", "bb"); ("bb", "ghost")] |}.

Definition g0 : Graph := {| node_table := []; edge_list := [] |}.

Definition machine (d : Detector) (g : Graph) (rng : Z) : Machine :=
  {| self := d; graph := g; wall_clock := fun n => inject_Z (Z.of_nat n);
     ticks := 0; global_rng := rng; log := [] |}.

(** The same objects on a machine whose clock is set back, one second at
    each reading. *)
Definition rewound_machine (d : Detector) (g : Graph) (rng : Z) : Machine :=
  {| self := d; graph := g; wall_clock := fun n => inject_Z (10 - Z.of_nat n);
     ticks := 0; global_rng := rng; log := [] |}.

(** The same objects on a machine whose clock and log differ. *)
Definition late_machine (d : Detector) (g : Graph) (rng : Z) : Machine :=
  {| self := d; graph := g; wall_clock := fun n => inject_Z (100 + 2 * Z.of_nat n);
     ticks := 5; global_rng := rng; log := [(INFO, "started")] |}.

Definition trained : Detector :=
  with_isolation_forest (Some (forest 3)) default_detector.

(** The result of a run that returns one. *)
Definition result_of (out : PyResult DetectionResult * Machine) : DetectionResult :=
  match out.1 with
  | inr r => r
  | inl _ => mkResult "" 0 ∅ ∅ ∅ 0
  end.

(** A run of the trained detector on the three-node graph, and one of
    the untrained detector. *)
Definition run_trained := detect backend (machine trained g3 1).
Definition run_untrained := detect backend (machine default_detector g3 1).

(** A run of the trained detector with the sparse vocabulary, on the
    machine with the other clock. *)
Definition run_sparse := detect sparse_backend (late_machine trained g3 5).

(** The batch that the run of the trained detector scores. *)
Definition batch_trained : list string * list Q * list Z :=
  default ([], [], []) (detect_batch backend trained g3 1).

End Toy.

(* ===================================================================== *)
(** ** What a run of [detect] computes *)
(* ===================================================================== *)

Lemma preserves_refl s : preserves s s.
Proof. by repeat split. Qed.

Lemma detect_embeddings_loop_run wv nodes el nl s :
  exists s', detect_embeddings_loop wv nodes el nl s
             = (inr (el ++ found_embeddings wv nodes, nl ++ found_nodes wv nodes), s')
             /\ preserves s s'.
Proof.
  revert el nl s. induction nodes as [|node rest IH]; intros el nl s.
  - exists s. simpl. unfold ret, found_embeddings, found_nodes. simpl.
    rewrite !app_nil_r. split; [done | apply preserves_refl].
  - simpl. unfold bind, try_except, wv_getitem.
    unfold found_embeddings, found_nodes. simpl. rewrite filter_cons.
    destruct (wv !! str node) as [e|] eqn:Hwv.
    + simpl.
      destruct (IH (el ++ [e]) (nl ++ [node]) s) as (s' & Heq & Hp).
      exists s'. rewrite Heq. unfold found_embeddings, found_nodes.
      rewrite <- !app_assoc. simpl. done.
    + simpl. unfold logger, ret, raise. simpl.
      match goal with |- context [detect_embeddings_loop wv rest el nl ?s0] =>
        destruct (IH el nl s0) as (s' & Heq & Hp) end.
      exists s'. rewrite Heq.
      split; [done|]. unfold preserves in *. simpl in *. done.
Qed.

Lemma ground_truth_loop_run nodes acc s :
  exists r, ground_truth_loop nodes acc s = (r, s) /\
            match labels_from (graph s) nodes acc with
            | Some gt => r = inr gt
            | None => exists e, r = inl e
            end.
Proof.
  revert acc. induction nodes as [|node rest IH]; intros acc; simpl.
  - eexists. split; [reflexivity | done].
  - unfold bind, graph_node_data, label_of.
    destruct (node_data_of (node_table (graph s)) node) as [node_data|]; [|by eauto].
    destruct (node_data !! "uav") as [[u|r]|]; simpl; eauto.
Qed.

Lemma return_empty_run start_time s :
  exists s', return_empty start_time s
             = (inr {| detector_name := name (self s);
                       timestamp := wall_clock s (S (ticks s));
                       anomalous_uav_ids := ∅;
                       confidence_scores := ∅;
                       ground_truth := ∅;
                       detection_time := (wall_clock s (ticks s) - start_time)%Q |}, s')
             /\ frame 2 s s' /\ global_rng s' = global_rng s.
Proof.
  unfold return_empty, bind, time_time, get_self, ret. simpl.
  eexists. split; [reflexivity|]. by repeat split.
Qed.

#[local] Arguments return_empty : simpl never.
#[local] Arguments found_embeddings : simpl never.
#[local] Arguments found_nodes : simpl never.
#[local] Arguments labels_from : simpl never.
#[local] Arguments score_loop : simpl never.

Ltac finish_run :=
  unfold return_empty, bind, time_time, get_self, logger, ret, preserves, frame in *;
  simpl in *;
  repeat match goal with H : _ /\ _ |- _ => destruct H end;
  eexists; split;
  [ apply f_equal2; [ apply f_equal; congruence | reflexivity ]
  | repeat split; simpl; congruence ].

(** Every run returns a result, assembled from three clock readings and the
    payload. *)
Lemma detect_run B s :
  exists s',
    detect B s
    = (inr {| detector_name := name (self s);
              timestamp := wall_clock s (S (S (ticks s)));
              anomalous_uav_ids := (detect_payload B (self s) (graph s) (global_rng s)).1.1;
              confidence_scores := (detect_payload B (self s) (graph s) (global_rng s)).1.2;
              ground_truth := (detect_payload B (self s) (graph s) (global_rng s)).2;
              detection_time := (wall_clock s (S (ticks s)) - wall_clock s (ticks s))%Q |},
       s')
    /\ frame 3 s s'.
Proof.
  unfold detect, detect_payload, detect_batch.
  unfold bind at 1. simpl. unfold bind at 1. simpl. unfold bind at 1. simpl.
  destruct (nodes_of (graph s)) as [|n0 ns] eqn:Hnodes; simpl.
  { finish_run. }
  destruct (isolation_forest (self s)) as [forest|] eqn:Hforest; simpl.
  2: { finish_run. }
  unfold try_except. unfold bind at 1. simpl. unfold bind at 1, with_global_rng at 1. simpl.
  destruct (Node2Vec B (graph s) (node2vec_args (self s)) (global_rng s)) as [[e|walks] rng1].
  { finish_run. }
  unfold bind at 1, with_global_rng at 1. simpl.
  destruct (node2vec_fit B (node2vec_args (self s)) walks 10 1 4 rng1) as [[e|model] rng2].
  { finish_run. }
  unfold bind at 1. simpl. rewrite Hnodes. unfold bind at 1.
  match goal with |- context [detect_embeddings_loop ?wv ?ns ?el ?nl ?s0] =>
    destruct (detect_embeddings_loop_run wv ns el nl s0) as (s1 & Heq1 & Hp1); rewrite Heq1 end.
  simpl. rewrite <- Hnodes.
  destruct (found_embeddings model (nodes_of (graph s))) as [|e0 el] eqn:Hemb.
  { finish_run. }
  unfold bind at 1, lift at 1.
  destruct (decision_function forest (e0 :: el)) as [e|scores].
  { finish_run. }
  unfold bind at 1, lift at 1.
  destruct (predict forest (e0 :: el)) as [e|preds].
  { finish_run. }
  destruct scores as [|x xs].
  { unfold array_min, raise. finish_run. }
  unfold bind at 1, array_min, ret. unfold bind at 1, array_max. simpl.
  destruct (score_loop (foldl Qmin x xs) (foldl Qmax x xs - foldl Qmin x xs)
              (found_nodes model (nodes_of (graph s))) (x :: xs) preds ∅ ∅) as [cs fl] eqn:Hsl.
  unfold bind at 1, graph_nodes at 1. unfold bind at 1.
  destruct (ground_truth_loop_run (nodes_of (graph s1)) ∅ s1) as (r & Heq2 & Hr).
  rewrite Heq2.
  assert (Hg : graph s1 = graph s) by (unfold preserves in Hp1; simpl in Hp1; tauto).
  rewrite Hg in Hr.
  destruct (labels_from (graph s) (nodes_of (graph s)) ∅) as [gt|].
  - subst r. finish_run.
  - destruct Hr as [e ->]. finish_run.
Qed.

(* ===================================================================== *)
(** ** Minimum, maximum and min-max scaling *)
(* ===================================================================== *)

Lemma Qmin_cases x y : Qmin x y = x \/ Qmin x y = y.
Proof. unfold Qmin, GenericMinMax.gmin. destruct (x ?= y)%Q; auto. Qed.

Lemma Qmax_cases x y : Qmax x y = x \/ Qmax x y = y.
Proof. unfold Qmax, GenericMinMax.gmax. destruct (x ?= y)%Q; auto. Qed.

Lemma foldl_Qmin_le_init xs x : (foldl Qmin x xs <= x)%Q.
Proof.
  revert x. induction xs as [|a xs IH]; intros x; simpl.
  - apply Qle_refl.
  - eapply Qle_trans; [apply IH | apply Q.le_min_l].
Qed.

Lemma foldl_Qmax_ge_init xs x : (x <= foldl Qmax x xs)%Q.
Proof.
  revert x. induction xs as [|a xs IH]; intros x; simpl.
  - apply Qle_refl.
  - eapply Qle_trans; [apply Q.le_max_l | apply IH].
Qed.

Lemma foldl_Qmin_is_min x xs : is_min (foldl Qmin x xs) (x :: xs).
Proof.
  revert x. induction xs as [|a xs IH]; intros x; simpl.
  - split; [left|]. intros y Hy. apply list_elem_of_singleton in Hy. subst. apply Qle_refl.
  - destruct (IH (Qmin x a)) as [Hin Hle]. split.
    + apply elem_of_cons in Hin as [Hin|Hin].
      * rewrite Hin. destruct (Qmin_cases x a) as [->| ->]; [left | right; left].
      * right; right; done.
    + intros y Hy. apply elem_of_cons in Hy as [->|Hy].
      * eapply Qle_trans; [apply foldl_Qmin_le_init | apply Q.le_min_l].
      * apply elem_of_cons in Hy as [->|Hy].
        -- eapply Qle_trans; [apply foldl_Qmin_le_init | apply Q.le_min_r].
        -- apply Hle. right; done.
Qed.

Lemma foldl_Qmax_is_max x xs : is_max (foldl Qmax x xs) (x :: xs).
Proof.
  revert x. induction xs as [|a xs IH]; intros x; simpl.
  - split; [left|]. intros y Hy. apply list_elem_of_singleton in Hy. subst. apply Qle_refl.
  - destruct (IH (Qmax x a)) as [Hin Hle]. split.
    + apply elem_of_cons in Hin as [Hin|Hin].
      * rewrite Hin. destruct (Qmax_cases x a) as [->| ->]; [left | right; left].
      * right; right; done.
    + intros y Hy. apply elem_of_cons in Hy as [->|Hy].
      * eapply Qle_trans; [apply Q.le_max_l | apply foldl_Qmax_ge_init].
      * apply elem_of_cons in Hy as [->|Hy].
        -- eapply Qle_trans; [apply Q.le_max_r | apply foldl_Qmax_ge_init].
        -- apply Hle. right; done.
Qed.

Lemma is_min_unique lo lo' l : is_min lo l -> is_min lo' l -> (lo == lo')%Q.
Proof. intros [Hi Hl] [Hi' Hl']. apply Qle_antisym; auto. Qed.

Lemma is_max_unique hi hi' l : is_max hi l -> is_max hi' l -> (hi == hi')%Q.
Proof. intros [Hi Hl] [Hi' Hl']. apply Qle_antisym; auto. Qed.

(** Min-max scaling stays in the unit interval. *)
Lemma normalized_score_bounds score lo hi :
  (lo <= score)%Q -> (score <= hi)%Q ->
  (0 <= normalized_score score lo (hi - lo) <= 1)%Q.
Proof.
  intros Hlo Hhi. unfold normalized_score.
  destruct (Qlt_le_dec 0 (hi - lo)) as [Hpos|Hnp]; [|split; discriminate].
  assert (H0 : (0 <= (score - lo) / (hi - lo))%Q).
  { apply Qle_shift_div_l; [done | lra]. }
  assert (H1 : ((score - lo) / (hi - lo) <= 1)%Q).
  { apply Qle_shift_div_r; [done | lra]. }
  split; lra.
Qed.

Lemma normalized_score_formula score lo hi :
  (lo < hi)%Q ->
  normalized_score score lo (hi - lo) = (1 - (score - lo) / (hi - lo))%Q.
Proof.
  intros H. unfold normalized_score.
  destruct (Qlt_le_dec 0 (hi - lo)); [done | lra].
Qed.

Lemma normalized_score_neutral score lo hi :
  (hi <= lo)%Q -> normalized_score score lo (hi - lo) = (1 # 2)%Q.
Proof.
  intros H. unfold normalized_score.
  destruct (Qlt_le_dec 0 (hi - lo)); [lra | done].
Qed.

(** A lower raw score never gets a lower confidence. *)
Lemma normalized_score_antitone s1 s2 lo hi :
  (s1 <= s2)%Q ->
  (normalized_score s2 lo (hi - lo) <= normalized_score s1 lo (hi - lo))%Q.
Proof.
  intros H. unfold normalized_score.
  destruct (Qlt_le_dec 0 (hi - lo)) as [Hpos|]; [|apply Qle_refl].
  assert (((s1 - lo) / (hi - lo) <= (s2 - lo) / (hi - lo))%Q).
  { apply Qle_shift_div_l; [done|].
    unfold Qdiv. rewrite <- Qmult_assoc, (Qmult_comm (/ _)), Qmult_inv_r by lra. lra. }
  lra.
Qed.

(* ===================================================================== *)
(** ** The scoring loop *)
(* ===================================================================== *)

#[local] Arguments score_loop : simpl nomatch.

Lemma score_loop_lookup lo rg nl sc pr (cs : gmap string Q) (fl : gset string) n c :
  (score_loop lo rg nl sc pr cs fl).1 !! n = Some c ->
  cs !! n = Some c \/
  exists i raw, nl !! i = Some n /\ sc !! i = Some raw /\ is_Some (pr !! i) /\
                c = normalized_score raw lo rg.
Proof.
  revert sc pr cs fl. induction nl as [|node nl IH]; intros sc pr cs fl H.
  - left. done.
  - destruct sc as [|score sc]; [by left|]. destruct pr as [|pred pr]; [by left|].
    simpl in H. apply IH in H as [H|(i & raw & H1 & H2 & H3 & H4)].
    + destruct (decide (node = n)) as [->|Hne].
      * rewrite lookup_insert_eq in H. injection H as <-.
        right. exists 0%nat, score. simpl. eauto.
      * rewrite lookup_insert_ne in H by done. by left.
    + right. exists (S i), raw. simpl. eauto.
Qed.

Lemma score_loop_dom lo rg nl sc pr (cs : gmap string Q) (fl : gset string) :
  dom (score_loop lo rg nl sc pr cs fl).1
  = dom cs ∪ list_to_set (take (length sc `min` length pr) nl).
Proof.
  revert sc pr cs fl. induction nl as [|node nl IH]; intros sc pr cs fl.
  - simpl. rewrite take_nil. set_solver.
  - destruct sc as [|score sc]; [simpl; set_solver|].
    destruct pr as [|pred pr]; [simpl; set_solver|].
    simpl. rewrite IH, dom_insert_L. set_solver.
Qed.

Lemma score_loop_flagged lo rg nl sc pr (cs : gmap string Q) (fl : gset string) :
  fl ⊆ dom cs ->
  (score_loop lo rg nl sc pr cs fl).2 ⊆ dom (score_loop lo rg nl sc pr cs fl).1.
Proof.
  revert sc pr cs fl. induction nl as [|node nl IH]; intros sc pr cs fl H.
  - done.
  - destruct sc as [|score sc]; [done|]. destruct pr as [|pred pr]; [done|].
    simpl. apply IH. rewrite dom_insert_L. destruct (pred =? -1)%Z; set_solver.
Qed.

Lemma found_nodes_subseteq wv nodes : found_nodes wv nodes ⊆ nodes.
Proof. unfold found_nodes. intros n Hn. apply list_elem_of_filter in Hn. tauto. Qed.

(** ** The ground-truth loop *)

Lemma labels_from_lookup g nodes acc gt n :
  labels_from g nodes acc = Some gt ->
  gt !! n = if decide (n ∈ nodes) then label_of g n else acc !! n.
Proof.
  revert acc. induction nodes as [|node rest IH]; intros acc H.
  - injection H as <-. rewrite decide_False by (apply not_elem_of_nil). done.
  - unfold labels_from in H. fold labels_from in H.
    destruct (label_of g node) as [b|] eqn:Hl; [|done].
    rewrite (IH _ H). destruct (decide (n ∈ rest)) as [Hin|Hnin].
    + rewrite decide_True by (right; done). done.
    + destruct (decide (n = node)) as [->|Hne].
      * rewrite decide_True by left. rewrite lookup_insert_eq. done.
      * rewrite decide_False by (intros Hc; apply elem_of_cons in Hc; tauto).
        by rewrite lookup_insert_ne.
Qed.

Lemma labels_from_dom g nodes acc gt :
  labels_from g nodes acc = Some gt -> dom gt = dom acc ∪ list_to_set nodes.
Proof.
  revert acc. induction nodes as [|node rest IH]; intros acc H.
  - injection H as <-. set_solver.
  - unfold labels_from in H. fold labels_from in H.
    destruct (label_of g node) as [b|]; [|done].
    rewrite (IH _ H), dom_insert_L. set_solver.
Qed.

(** ** Reading a result off a run *)

Lemma detect_returns B s r s' :
  detect B s = (inr r, s') ->
  anomalous_uav_ids r = (detect_payload B (self s) (graph s) (global_rng s)).1.1 /\
  confidence_scores r = (detect_payload B (self s) (graph s) (global_rng s)).1.2 /\
  ground_truth r = (detect_payload B (self s) (graph s) (global_rng s)).2 /\
  detection_time r = (wall_clock s (S (ticks s)) - wall_clock s (ticks s))%Q /\
  timestamp r = wall_clock s (S (S (ticks s))) /\
  detector_name r = name (self s).
Proof.
  intros H. destruct (detect_run B s) as (s0 & Heq & _).
  rewrite Heq in H. injection H as <- _. done.
Qed.

(** The payload is either empty or that of a scored batch. *)
Lemma detect_payload_cases B d g rng :
  detect_payload B d g rng = (∅, ∅, ∅) \/
  exists node_list x xs predictions gt,
    detect_batch B d g rng = Some (node_list, x :: xs, predictions) /\
    labels_from g (nodes_of g) ∅ = Some gt /\
    detect_payload B d g rng
    = ((score_loop (foldl Qmin x xs) (foldl Qmax x xs - foldl Qmin x xs)%Q
                   node_list (x :: xs) predictions ∅ ∅).2,
       (score_loop (foldl Qmin x xs) (foldl Qmax x xs - foldl Qmin x xs)%Q
                   node_list (x :: xs) predictions ∅ ∅).1,
       gt).
Proof.
  unfold detect_payload.
  destruct (detect_batch B d g rng) as [[[nl [|x xs]] pr]|]; auto.
  destruct (labels_from g (nodes_of g) ∅) as [gt|]; auto.
  right. by exists nl, x, xs, pr, gt.
Qed.

Lemma detect_batch_nodes B d g rng node_list scores predictions :
  detect_batch B d g rng = Some (node_list, scores, predictions) ->
  node_list ⊆ nodes_of g /\ nodes_of g <> [] /\ is_Some (isolation_forest d) /\
  (NoDup (nodes_of g) -> NoDup node_list).
Proof.
  unfold detect_batch. intros H.
  destruct (nodes_of g) as [|n0 ns] eqn:Hn; [done|].
  destruct (isolation_forest d) as [forest|]; [|done].
  destruct (Node2Vec B g (node2vec_args d) rng) as [[e|walks] rng1]; [done|].
  destruct (node2vec_fit B (node2vec_args d) walks 10 1 4 rng1) as [[e|model] rng2]; [done|].
  destruct (found_embeddings model (n0 :: ns)); [done|].
  destruct (decision_function forest _); [done|].
  destruct (predict forest _); [done|].
  injection H as <- <- <-. split; [apply found_nodes_subseteq|].
  split; [done|]. split; [by eauto|]. apply NoDup_filter.
Qed.

(* ===================================================================== *)
(** ** Properties of [detect] *)
(* ===================================================================== *)

(** C2, as worded, fails: [detection_time] is a difference of two readings
    of [time.time()], and on a clock that is set back between them the
    untrained detector returns a negative detection time. *)
Lemma detect_negative_detection_time :
  exists r s',
    detect Toy.backend (Toy.rewound_machine default_detector Toy.g3 7) = (inr r, s') /\
    isolation_forest (self (Toy.rewound_machine default_detector Toy.g3 7)) = None /\
    anomalous_uav_ids r = ∅ /\ confidence_scores r = ∅ /\ ground_truth r = ∅ /\
    ~ (0 <= detection_time r)%Q.
Proof.
  eexists _, _. split; [vm_compute; reflexivity|].
  repeat split; try reflexivity. simpl. intros H. by vm_compute in H.
Qed.

(** C2, amended.  When the graph has no node, or the detector has no fitted
    isolation forest, [detect] raises nothing and returns a result whose
    flagged set, confidence-score map and ground-truth map are empty; its
    detection time is the second reading of the clock minus the first, so
    it is non-negative exactly when the clock has not gone back between
    the two readings. *)
Theorem detect_empty_graph_or_untrained B s :
  nodes_of (graph s) = [] \/ isolation_forest (self s) = None ->
  exists r s',
    detect B s = (inr r, s') /\
    anomalous_uav_ids r = ∅ /\ confidence_scores r = ∅ /\ ground_truth r = ∅ /\
    detection_time r = (wall_clock s (S (ticks s)) - wall_clock s (ticks s))%Q /\
    ((0 <= detection_time r)%Q <-> (wall_clock s (ticks s) <= wall_clock s (S (ticks s)))%Q).
Proof.
  intros Hdeg.
  destruct (detect_run B s) as (s' & Heq & _).
  eexists _, s'. split; [exact Heq|]. simpl.
  assert (Hp : detect_payload B (self s) (graph s) (global_rng s) = (∅, ∅, ∅)).
  { unfold detect_payload, detect_batch.
    destruct Hdeg as [-> | ->]; [done|]. by destruct (nodes_of (graph s)). }
  rewrite Hp. simpl. repeat split; try done; intros; lra.
Qed.

Lemma detect_empty_graph_or_untrained_witness :
  (nodes_of (graph (Toy.machine default_detector Toy.g3 7)) = [] \/
   isolation_forest (self (Toy.machine default_detector Toy.g3 7)) = None) /\
  exists r s',
    detect Toy.backend (Toy.machine default_detector Toy.g3 7) = (inr r, s') /\
    anomalous_uav_ids r = ∅ /\ confidence_scores r = ∅ /\ ground_truth r = ∅ /\
    detection_time r
    = (wall_clock (Toy.machine default_detector Toy.g3 7)
         (S (ticks (Toy.machine default_detector Toy.g3 7)))
       - wall_clock (Toy.machine default_detector Toy.g3 7)
           (ticks (Toy.machine default_detector Toy.g3 7)))%Q /\
    ((0 <= detection_time r)%Q <->
     (wall_clock (Toy.machine default_detector Toy.g3 7)
        (ticks (Toy.machine default_detector Toy.g3 7))
      <= wall_clock (Toy.machine default_detector Toy.g3 7)
           (S (ticks (Toy.machine default_detector Toy.g3 7))))%Q).
Proof.
  assert (H : nodes_of (graph (Toy.machine default_detector Toy.g3 7)) = [] \/
              isolation_forest (self (Toy.machine default_detector Toy.g3 7)) = None)
    by (right; reflexivity).
  split; [exact H|].
  exact (detect_empty_graph_or_untrained Toy.backend
           (Toy.machine default_detector Toy.g3 7) H).
Defined.

Lemma internal_failure_payload B s :
  internal_failure B s ->
  detect_payload B (self s) (graph s) (global_rng s) = (∅, ∅, ∅).
Proof.
  intros H. unfold detect_payload, detect_batch.
  destruct (nodes_of (graph s)) as [|n0 ns] eqn:Hn; [done|].
  destruct (isolation_forest (self s)) as [forest|] eqn:Hf; [|done].
  destruct H as [e rng1 H1 | walks rng1 e rng2 H1 H2 | walks rng1 model rng2 H1 H2 H3
                | f walks rng1 model rng2 e Hf' H1 H2 H3
                | f walks rng1 model rng2 e Hf' H1 H2 H3
                | f walks rng1 model rng2 Hf' H1 H2 H3 | H1];
    try rewrite Hn in H3.
  - by rewrite H1.
  - by rewrite H1, H2.
  - by rewrite H1, H2, H3.
  - rewrite Hf in Hf'. simplify_eq. rewrite H1, H2.
    destruct (found_embeddings model (n0 :: ns)); [done|]. by rewrite H3.
  - rewrite Hf in Hf'. simplify_eq. rewrite H1, H2.
    destruct (found_embeddings model (n0 :: ns)); [done|].
    destruct (decision_function f _); [done|]. by rewrite H3.
  - rewrite Hf in Hf'. simplify_eq. rewrite H1, H2.
    destruct (found_embeddings model (n0 :: ns)); [done|].
    rewrite H3. by destruct (predict f _).
  - rewrite Hn in H1. rewrite H1.
    destruct (Node2Vec B (graph s) (node2vec_args (self s)) (global_rng s)) as [[e|walks] rng1]; [done|].
    destruct (node2vec_fit B (node2vec_args (self s)) walks 10 1 4 rng1) as [[e|model] rng2]; [done|].
    destruct (found_embeddings model (n0 :: ns)); [done|].
    destruct (decision_function forest _) as [|[|x xs]]; [done| |];
      by destruct (predict forest _).
Qed.

(** C4.  [detect] never raises: every run returns a result whose
    detection-time field holds the elapsed clock time, and whenever
    embedding generation or scoring fails the result has an empty flagged
    set and empty score and ground-truth maps. *)
Theorem detect_never_raises B s :
  exists r s',
    detect B s = (inr r, s') /\
    detection_time r = (wall_clock s (S (ticks s)) - wall_clock s (ticks s))%Q /\
    (internal_failure B s -> is_empty_result r).
Proof.
  destruct (detect_run B s) as (s' & Heq & _).
  eexists _, s'. split; [exact Heq|]. simpl. split; [done|].
  intros Hfail. unfold is_empty_result. simpl.
  by rewrite (internal_failure_payload B s Hfail).
Qed.

(** A raising library call is absorbed. *)
Example detect_absorbs_failing_walks :
  internal_failure Toy.failing_backend (Toy.machine Toy.trained Toy.g3 1) /\
  exists r s',
    detect Toy.failing_backend (Toy.machine Toy.trained Toy.g3 1) = (inr r, s') /\
    is_empty_result r /\ detection_time r = 1%Q /\
    log s' = [(ERROR, "Error in Node2Vec detection: walk generation failed")].
Proof.
  split.
  - by eapply walks_raise.
  - eexists _, _. split; [vm_compute; reflexivity|]. by repeat split.
Qed.

(** C9.  [detect] leaves the graph it is given as it was: same nodes, same
    attributes, same edges. *)
Theorem detect_leaves_graph_unchanged B s :
  graph (detect B s).2 = graph s.
Proof.
  destruct (detect_run B s) as (s' & Heq & Hframe).
  rewrite Heq. simpl. apply Hframe.
Qed.

(** C10.  In every result of [detect] the flagged identities are keys of
    the confidence-score map, and every key of that map is a node of the
    input graph. *)
Theorem detect_flagged_subset_scored B s r s' :
  detect B s = (inr r, s') ->
  anomalous_uav_ids r ⊆ dom (confidence_scores r) /\
  (forall node, node ∈ dom (confidence_scores r) -> node ∈ nodes_of (graph s)).
Proof.
  intros H. apply detect_returns in H as (Ha & Hc & _). rewrite Ha, Hc.
  destruct (detect_payload_cases B (self s) (graph s) (global_rng s))
    as [-> | (nl & x & xs & pr & gt & Hb & _ & ->)]; simpl.
  - split; [done|]. intros node Hn. by rewrite dom_empty_L in Hn.
  - split; [by apply score_loop_flagged|].
    intros node Hn. rewrite score_loop_dom, dom_empty_L in Hn.
    apply detect_batch_nodes in Hb as [Hsub _]. apply Hsub.
    apply elem_of_union in Hn as [Hn|Hn]; [done|].
    apply elem_of_list_to_set in Hn. by eapply subseteq_take.
Qed.

(** C7.  In every non-empty result of [detect], each node of the input
    graph has a ground-truth entry: the [is_legitimate] label of the UAV
    object stored under the node's [uav] attribute, and [True] when the
    node has no such attribute. *)
Theorem detect_ground_truth_labels B s r s' :
  detect B s = (inr r, s') ->
  ~ is_empty_result r ->
  forall node, node ∈ nodes_of (graph s) ->
    exists node_data,
      node_data_of (node_table (graph s)) node = Some node_data /\
      (forall u, node_data !! "uav" = Some (AttrUAV u) ->
                 ground_truth r !! node = Some (is_legitimate u)) /\
      (node_data !! "uav" = None -> ground_truth r !! node = Some true).
Proof.
  intros H Hne node Hnode.
  apply detect_returns in H as (Ha & Hc & Hg & _).
  destruct (detect_payload_cases B (self s) (graph s) (global_rng s))
    as [Hp | (nl & x & xs & pr & gt & _ & Hl & Hp)];
    rewrite Hp in Ha, Hc, Hg; simpl in Ha, Hc, Hg.
  - by destruct Hne.
  - pose proof (labels_from_lookup _ _ _ _ node Hl) as Hlk.
    rewrite decide_True in Hlk by done. rewrite Hg, Hlk.
    assert (Hsome : is_Some (label_of (graph s) node)).
    { clear Hlk. revert Hl Hnode. generalize (∅ : gmap string bool).
      induction (nodes_of (graph s)) as [|n rest IH]; intros acc Hl Hnode.
      - by apply elem_of_nil in Hnode.
      - unfold labels_from in Hl. fold labels_from in Hl.
        destruct (label_of (graph s) n) as [b|] eqn:Hb; [|done].
        apply elem_of_cons in Hnode as [->|Hnode]; [by rewrite Hb | by eapply IH]. }
    unfold label_of in *.
    destruct (node_data_of (node_table (graph s)) node) as [node_data|];
      [|by destruct Hsome].
    exists node_data. split; [done|]. split.
    + intros u Hu. by rewrite Hu.
    + intros Hu. by rewrite Hu.
Qed.

Lemma detect_flagged_subset_scored_witness :
  detect Toy.backend (Toy.machine Toy.trained Toy.g3 1)
  = (inr (Toy.result_of Toy.run_trained), Toy.run_trained.2) /\
  anomalous_uav_ids (Toy.result_of Toy.run_trained)
    ⊆ dom (confidence_scores (Toy.result_of Toy.run_trained)) /\
  (forall node, node ∈ dom (confidence_scores (Toy.result_of Toy.run_trained)) ->
                node ∈ nodes_of Toy.g3).
Proof.
  assert (H : detect Toy.backend (Toy.machine Toy.trained Toy.g3 1)
              = (inr (Toy.result_of Toy.run_trained), Toy.run_trained.2))
    by (vm_compute; reflexivity).
  split; [exact H|].
  exact (detect_flagged_subset_scored Toy.backend
           (Toy.machine Toy.trained Toy.g3 1) _ _ H).
Defined.

Lemma toy_result_not_empty : ~ is_empty_result (Toy.result_of Toy.run_trained).
Proof.
  intros (_ & _ & H).
  apply (f_equal (fun m : gmap string bool => m !! "a")) in H.
  vm_compute in H. discriminate.
Qed.

Lemma detect_ground_truth_labels_witness :
  detect Toy.backend (Toy.machine Toy.trained Toy.g3 1)
  = (inr (Toy.result_of Toy.run_trained), Toy.run_trained.2) /\
  ~ is_empty_result (Toy.result_of Toy.run_trained) /\
  forall node, node ∈ nodes_of Toy.g3 ->
    exists node_data,
      node_data_of (node_table Toy.g3) node = Some node_data /\
      (forall u, node_data !! "uav" = Some (AttrUAV u) ->
                 ground_truth (Toy.result_of Toy.run_trained) !! node
                 = Some (is_legitimate u)) /\
      (node_data !! "uav" = None ->
       ground_truth (Toy.result_of Toy.run_trained) !! node = Some true).
Proof.
  assert (H : detect Toy.backend (Toy.machine Toy.trained Toy.g3 1)
              = (inr (Toy.result_of Toy.run_trained), Toy.run_trained.2))
    by (vm_compute; reflexivity).
  split; [exact H|]. split; [exact toy_result_not_empty|].
  exact (detect_ground_truth_labels Toy.backend
           (Toy.machine Toy.trained Toy.g3 1) _ _ H toy_result_not_empty).
Defined.

(** C3, as worded, fails: an untrained detector returns empty maps for a
    graph of three nodes. *)
Lemma detect_untrained_covers_no_node :
  exists r s',
    detect Toy.backend (Toy.machine default_detector Toy.g3 1) = (inr r, s') /\
    ~ covers_every_node (graph (Toy.machine default_detector Toy.g3 1)) r.
Proof.
  exists (Toy.result_of Toy.run_untrained), Toy.run_untrained.2.
  split; [vm_compute; reflexivity|].
  intros [H | (H & _)].
  - destruct (H "a") as [[c Hc] _]; [left|]. vm_compute in Hc. discriminate.
  - discriminate.
Qed.

(** A run on a graph with nodes, by a detector with a forest, without
    internal failure, scores a batch. *)
Lemma regular_run_payload B s :
  nodes_of (graph s) <> [] ->
  isolation_forest (self s) <> None ->
  ~ internal_failure B s ->
  exists node_list x xs predictions gt,
    detect_batch B (self s) (graph s) (global_rng s)
    = Some (node_list, x :: xs, predictions) /\
    labels_from (graph s) (nodes_of (graph s)) ∅ = Some gt /\
    detect_payload B (self s) (graph s) (global_rng s)
    = ((score_loop (foldl Qmin x xs) (foldl Qmax x xs - foldl Qmin x xs)%Q
                   node_list (x :: xs) predictions ∅ ∅).2,
       (score_loop (foldl Qmin x xs) (foldl Qmax x xs - foldl Qmin x xs)%Q
                   node_list (x :: xs) predictions ∅ ∅).1,
       gt).
Proof.
  intros Hn Hf Hok.
  destruct (labels_from (graph s) (nodes_of (graph s)) ∅) as [gt|] eqn:Hl;
    [|exfalso; apply Hok; by apply label_raises].
  unfold detect_payload, detect_batch. rewrite Hl.
  destruct (nodes_of (graph s)) as [|n0 ns] eqn:Hnodes; [done|].
  destruct (isolation_forest (self s)) as [forest|] eqn:Hforest; [|done].
  destruct (Node2Vec B (graph s) (node2vec_args (self s)) (global_rng s))
    as [[e|walks] rng1] eqn:E1; [exfalso; apply Hok; by eapply walks_raise|].
  destruct (node2vec_fit B (node2vec_args (self s)) walks 10 1 4 rng1)
    as [[e|model] rng2] eqn:E2; [exfalso; apply Hok; by eapply fit_raises|].
  destruct (found_embeddings model (n0 :: ns)) as [|e0 el] eqn:E3.
  { exfalso; apply Hok. eapply no_embedding; eauto. by rewrite Hnodes. }
  destruct (decision_function forest (e0 :: el)) as [e|scores] eqn:E4.
  { exfalso; apply Hok. eapply decision_function_raises; eauto. by rewrite Hnodes, E3. }
  destruct (predict forest (e0 :: el)) as [e|preds] eqn:E5.
  { exfalso; apply Hok. eapply predict_raises; eauto. by rewrite Hnodes, E3. }
  destruct scores as [|x xs].
  { exfalso; apply Hok. eapply no_scores; eauto. by rewrite Hnodes, E3. }
  by exists (found_nodes model (n0 :: ns)), x, xs, preds, gt.
Qed.

(** C3, amended.  In every result of [detect]: when the graph has no node,
    the detector has no fitted forest, or an internal failure is caught,
    both maps are empty; otherwise the keys of the ground-truth map are
    exactly the nodes of the graph and the keys of the confidence-score map
    are exactly the scored nodes, that is the nodes that have an embedding,
    as far as the loop over [zip(node_list, anomaly_scores, predictions)]
    reaches; so every node of the graph is a key of both maps as soon as
    every node has an embedding and the forest returns a score and a
    prediction for each. *)
Theorem detect_result_keys B s r s' :
  detect B s = (inr r, s') ->
  (nodes_of (graph s) = [] \/ isolation_forest (self s) = None \/ internal_failure B s ->
   confidence_scores r = ∅ /\ ground_truth r = ∅) /\
  (nodes_of (graph s) <> [] -> isolation_forest (self s) <> None ->
   ~ internal_failure B s ->
   exists node_list scores predictions,
     detect_batch B (self s) (graph s) (global_rng s)
     = Some (node_list, scores, predictions) /\
     dom (ground_truth r) = list_to_set (nodes_of (graph s)) /\
     dom (confidence_scores r)
     = list_to_set (take (length scores `min` length predictions) node_list) /\
     (node_list = nodes_of (graph s) ->
      (length node_list <= length scores)%nat ->
      (length node_list <= length predictions)%nat ->
      covers_every_node (graph s) r)).
Proof.
  intros H. apply detect_returns in H as (_ & Hc & Hg & _). rewrite Hc, Hg. split.
  - intros Hdeg.
    assert (Hp : detect_payload B (self s) (graph s) (global_rng s) = (∅, ∅, ∅)).
    { destruct Hdeg as [Hn | [Hf | Hfail]]; [| |by apply internal_failure_payload].
      - unfold detect_payload, detect_batch. by rewrite Hn.
      - unfold detect_payload, detect_batch. rewrite Hf.
        by destruct (nodes_of (graph s)). }
    by rewrite Hp.
  - intros Hn Hf Hok.
    destruct (regular_run_payload B s Hn Hf Hok)
      as (nl & x & xs & pr & gt & Hb & Hl & Hp).
    rewrite Hp. simpl. exists nl, (x :: xs), pr. split; [done|].
    assert (Hdg : dom gt = list_to_set (nodes_of (graph s))).
    { rewrite (labels_from_dom _ _ _ _ Hl), dom_empty_L. set_solver. }
    assert (Hdc : dom (score_loop (foldl Qmin x xs) (foldl Qmax x xs - foldl Qmin x xs)
                          nl (x :: xs) pr ∅ ∅).1
                  = list_to_set (take (length (x :: xs) `min` length pr) nl)).
    { rewrite score_loop_dom, dom_empty_L. set_solver. }
    split; [done|]. split; [done|].
    intros -> Hl1 Hl2. left. intros node Hnode.
    unfold covers_every_node. rewrite Hc, Hg, Hp. simpl. split.
    + apply elem_of_dom. rewrite Hdc, take_ge by lia. set_solver.
    + apply elem_of_dom. rewrite Hdg. set_solver.
Qed.

(** A node without an embedding has a ground-truth label but no score. *)
Example detect_skips_node_without_embedding :
  exists r s',
    detect Toy.sparse_backend (Toy.machine Toy.trained Toy.g3 1) = (inr r, s') /\
    confidence_scores r !! "ghost" = None /\
    ground_truth r !! "ghost" = Some true /\
    is_Some (confidence_scores r !! "a") /\
    log s' = [(WARNING, "No embedding for node ghost");
              (DEBUG, "Node2Vec detection: 0 anomalies detected")].
Proof.
  eexists _, _. split; [vm_compute; reflexivity|].
  repeat split; try (vm_compute; reflexivity). by eexists.
Qed.

Lemma toy_run_trained_regular :
  ~ internal_failure Toy.backend (Toy.machine Toy.trained Toy.g3 1).
Proof.
  intros [e rng1 H1 | walks rng1 e rng2 H1 H2 | walks rng1 model rng2 H1 H2 H3
         | f walks rng1 model rng2 e Hf H1 H2 H3
         | f walks rng1 model rng2 e Hf H1 H2 H3
         | f walks rng1 model rng2 Hf H1 H2 H3 | H1].
  - vm_compute in H1. discriminate.
  - injection H1 as <- <-. vm_compute in H2. discriminate.
  - injection H1 as <- <-. injection H2 as <- <-. vm_compute in H3. discriminate.
  - injection Hf as <-. injection H1 as <- <-. injection H2 as <- <-.
    vm_compute in H3. discriminate.
  - injection Hf as <-. injection H1 as <- <-. injection H2 as <- <-.
    vm_compute in H3. discriminate.
  - injection Hf as <-. injection H1 as <- <-. injection H2 as <- <-.
    vm_compute in H3. discriminate.
  - vm_compute in H1. discriminate.
Qed.

Lemma detect_result_keys_witness :
  detect Toy.backend (Toy.machine Toy.trained Toy.g3 1)
  = (inr (Toy.result_of Toy.run_trained), Toy.run_trained.2) /\
  nodes_of (graph (Toy.machine Toy.trained Toy.g3 1)) <> [] /\
  isolation_forest (self (Toy.machine Toy.trained Toy.g3 1)) <> None /\
  ~ internal_failure Toy.backend (Toy.machine Toy.trained Toy.g3 1) /\
  exists node_list scores predictions,
    detect_batch Toy.backend Toy.trained Toy.g3 1
    = Some (node_list, scores, predictions) /\
    dom (ground_truth (Toy.result_of Toy.run_trained)) = list_to_set (nodes_of Toy.g3) /\
    dom (confidence_scores (Toy.result_of Toy.run_trained))
    = list_to_set (take (length scores `min` length predictions) node_list) /\
    (node_list = nodes_of Toy.g3 ->
     (length node_list <= length scores)%nat ->
     (length node_list <= length predictions)%nat ->
     covers_every_node Toy.g3 (Toy.result_of Toy.run_trained)).
Proof.
  assert (H : detect Toy.backend (Toy.machine Toy.trained Toy.g3 1)
              = (inr (Toy.result_of Toy.run_trained), Toy.run_trained.2))
    by (vm_compute; reflexivity).
  assert (Hn : nodes_of (graph (Toy.machine Toy.trained Toy.g3 1)) <> [])
    by discriminate.
  assert (Hf : isolation_forest (self (Toy.machine Toy.trained Toy.g3 1)) <> None)
    by discriminate.
  split; [exact H|]. split; [exact Hn|]. split; [exact Hf|].
  split; [exact toy_run_trained_regular|].
  exact (proj2 (detect_result_keys Toy.backend (Toy.machine Toy.trained Toy.g3 1) _ _ H)
           Hn Hf toy_run_trained_regular).
Defined.

(** C1.  Every confidence score a run of [detect] returns belongs to a node
    of the scored batch and is computed from that node's raw
    decision-function value: it lies in [0,1]; when the batch's minimum is
    below its maximum it is [1 - (raw - min) / (max - min)]; when all raw
    scores of the batch are equal it is exactly [1/2]; and a node whose raw
    score is the batch's minimum has a confidence no other node exceeds.
    The nodes of a graph being distinct, the node has one position in the
    batch. *)
Theorem detect_confidence_minmax B s r s' node c :
  detect B s = (inr r, s') ->
  confidence_scores r !! node = Some c ->
  exists node_list scores predictions i raw,
    detect_batch B (self s) (graph s) (global_rng s)
    = Some (node_list, scores, predictions) /\
    node_list !! i = Some node /\ scores !! i = Some raw /\
    (0 <= c <= 1)%Q /\
    (forall lo hi, is_min lo scores -> is_max hi scores -> (lo < hi)%Q ->
                   (c == 1 - (raw - lo) / (hi - lo))%Q) /\
    ((forall x y, x ∈ scores -> y ∈ scores -> (x == y)%Q) -> c = (1 # 2)%Q) /\
    (is_min raw scores ->
     forall node' c', confidence_scores r !! node' = Some c' -> (c' <= c)%Q) /\
    (NoDup (nodes_of (graph s)) -> forall j, node_list !! j = Some node -> j = i).
Proof.
  intros H Hc. apply detect_returns in H as (_ & Hcs & _). rewrite Hcs in Hc |- *.
  destruct (detect_payload_cases B (self s) (graph s) (global_rng s))
    as [Hp | (nl & x & xs & pr & gt & Hb & _ & Hp)]; rewrite Hp in Hc |- *;
    simpl in Hc |- *; [by rewrite lookup_empty in Hc|].
  pose proof (foldl_Qmin_is_min x xs) as Hmin.
  pose proof (foldl_Qmax_is_max x xs) as Hmax.
  set (lo0 := foldl Qmin x xs) in *. set (hi0 := foldl Qmax x xs) in *.
  assert (Hentry : forall n' c',
             (score_loop lo0 (hi0 - lo0) nl (x :: xs) pr ∅ ∅).1 !! n' = Some c' ->
             exists j raw', nl !! j = Some n' /\ (x :: xs) !! j = Some raw' /\
                            raw' ∈ x :: xs /\
                            c' = normalized_score raw' lo0 (hi0 - lo0)).
  { intros n' c' Hn'. apply score_loop_lookup in Hn' as [Hn'|(j & raw' & H1 & H2 & _ & H4)].
    - by rewrite lookup_empty in Hn'.
    - exists j, raw'. repeat split; try done. by eapply list_elem_of_lookup_2. }
  destruct (Hentry _ _ Hc) as (i & raw & Hi & Hraw & Hin & ->).
  exists nl, (x :: xs), pr, i, raw. repeat split; try done.
  - apply normalized_score_bounds; [by apply Hmin | by apply Hmax].
  - apply normalized_score_bounds; [by apply Hmin | by apply Hmax].
  - intros lo hi Hlo Hhi Hlt.
    pose proof (is_min_unique _ _ _ Hmin Hlo) as Elo.
    pose proof (is_max_unique _ _ _ Hmax Hhi) as Ehi.
    rewrite normalized_score_formula by (rewrite Elo, Ehi; done).
    by rewrite Elo, Ehi.
  - intros Heq. apply normalized_score_neutral.
    apply Qle_lteq. right. apply Heq; [apply Hmax | apply Hmin].
  - intros Hrawmin node' c' Hc'.
    destruct (Hentry _ _ Hc') as (j & raw' & _ & _ & Hin' & ->).
    apply normalized_score_antitone. by apply Hrawmin.
  - intros Hnd j Hj. apply detect_batch_nodes in Hb as (_ & _ & _ & Hnd').
    by eapply NoDup_lookup; [apply Hnd'| |].
Qed.

Lemma detect_confidence_minmax_witness :
  detect Toy.backend (Toy.machine Toy.trained Toy.g3 1)
  = (inr (Toy.result_of Toy.run_trained), Toy.run_trained.2) /\
  confidence_scores (Toy.result_of Toy.run_trained) !! "bb" = Some (1 # 4)%Q /\
  exists node_list scores predictions i raw,
    detect_batch Toy.backend Toy.trained Toy.g3 1
    = Some (node_list, scores, predictions) /\
    node_list !! i = Some "bb" /\ scores !! i = Some raw /\
    (0 <= 1 # 4 <= 1)%Q /\
    (forall lo hi, is_min lo scores -> is_max hi scores -> (lo < hi)%Q ->
                   (1 # 4 == 1 - (raw - lo) / (hi - lo))%Q) /\
    ((forall x y, x ∈ scores -> y ∈ scores -> (x == y)%Q) -> (1 # 4)%Q = (1 # 2)%Q) /\
    (is_min raw scores ->
     forall node' c',
       confidence_scores (Toy.result_of Toy.run_trained) !! node' = Some c' ->
       (c' <= 1 # 4)%Q) /\
    (NoDup (nodes_of Toy.g3) -> forall j, node_list !! j = Some "bb" -> j = i).
Proof.
  assert (H : detect Toy.backend (Toy.machine Toy.trained Toy.g3 1)
              = (inr (Toy.result_of Toy.run_trained), Toy.run_trained.2))
    by (vm_compute; reflexivity).
  assert (Hc : confidence_scores (Toy.result_of Toy.run_trained) !! "bb"
               = Some (1 # 4)%Q) by (vm_compute; reflexivity).
  split; [exact H|]. split; [exact Hc|].
  exact (detect_confidence_minmax Toy.backend
           (Toy.machine Toy.trained Toy.g3 1) _ _ "bb" (1 # 4)%Q H Hc).
Defined.

(* ===================================================================== *)
(** ** What a run of [train] leaves behind *)
(* ===================================================================== *)

Lemma with_baseline_embeddings_same d :
  with_baseline_embeddings (baseline_embeddings d) d = d.
Proof. by destruct d. Qed.

#[local] Arguments learn_baseline : simpl never.

Lemma train_embeddings_loop_run wv nodes el s :
  exists s', train_embeddings_loop wv nodes el s
             = (inr (el ++ found_embeddings wv nodes), s')
             /\ self s' = with_baseline_embeddings
                            (learn_baseline wv nodes (baseline_embeddings (self s))) (self s)
             /\ graph s' = graph s /\ wall_clock s' = wall_clock s
             /\ ticks s' = ticks s /\ global_rng s' = global_rng s.
Proof.
  revert el s. induction nodes as [|node rest IH]; intros el s.
  - exists s. unfold found_embeddings, learn_baseline. simpl.
    rewrite app_nil_r, with_baseline_embeddings_same. done.
  - simpl. unfold bind, try_except, wv_getitem, found_embeddings, learn_baseline. simpl.
    destruct (wv !! str node) as [e|] eqn:Hwv; simpl.
    + match goal with |- context [train_embeddings_loop wv rest ?el0 ?s0] =>
        destruct (IH el0 s0) as (s' & Heq & Hs & Hg & Hc & Ht & Hr) end.
      exists s'. rewrite Heq. simpl in *. rewrite <- app_assoc. simpl.
      repeat split; try done.
    + unfold logger, ret. simpl.
      match goal with |- context [train_embeddings_loop wv rest ?el0 ?s0] =>
        destruct (IH el0 s0) as (s' & Heq & Hs & Hg & Hc & Ht & Hr) end.
      exists s'. rewrite Heq. simpl in *. repeat split; try done.
Qed.

#[local] Arguments train_embeddings_loop : simpl never.

Lemma train_run B clean_graphs s :
  exists s',
    train B clean_graphs s = (inr tt, s') /\
    self s' = (train_outcome B clean_graphs (self s) (global_rng s)).1 /\
    global_rng s' = (train_outcome B clean_graphs (self s) (global_rng s)).2 /\
    graph s' = graph s /\ wall_clock s' = wall_clock s /\ ticks s' = ticks s.
Proof.
  unfold train, train_outcome, train_on.
  unfold bind at 1, modify_self, bind at 1. simpl.
  destruct (last clean_graphs) as [g|].
  2: { eexists. split; [reflexivity|]. simpl. done. }
  destruct (nodes_of g) as [|n0 ns] eqn:Hn; simpl.
  { eexists. split; [reflexivity|]. simpl. done. }
  unfold bind at 1, logger at 1. simpl. unfold try_except, bind at 1. simpl.
  unfold bind at 1, with_global_rng at 1. simpl.
  destruct (Node2Vec B g _ (global_rng s)) as [[e|walks] rng1]; simpl.
  { eexists. split; [reflexivity|]. simpl. done. }
  unfold bind at 1, with_global_rng at 1. simpl.
  destruct (node2vec_fit B _ walks 10 1 4 rng1) as [[e|model] rng2]; simpl.
  { eexists. split; [reflexivity|]. simpl. done. }
  unfold bind at 1. simpl. unfold bind at 1.
  match goal with |- context [train_embeddings_loop ?wv ?nodes ?el0 ?s0] =>
    destruct (train_embeddings_loop_run wv nodes el0 s0)
      as (s1 & Heq & Hs & Hg & Hc & Ht & Hr) end.
  rewrite Heq. simpl in *.
  destruct (found_embeddings model (n0 :: ns)) as [|e0 el]; simpl.
  { eexists. split; [reflexivity|]. simpl. rewrite Hs. done. }
  unfold bind at 1. simpl. unfold bind at 1, lift at 1. rewrite Hs. simpl.
  destruct (IsolationForest_fit B 100 (contamination (self s)) 42 (e0 :: el)) as [e|forest];
    simpl.
  - eexists. split; [reflexivity|]. simpl. rewrite Hs. done.
  - eexists. split; [reflexivity|]. simpl. rewrite Hs. done.
Qed.

Lemma train_on_baseline_graphs B g gs d rng :
  train_on B g (with_baseline_graphs gs d) rng
  = (with_baseline_graphs gs (train_on B g d rng).1, (train_on B g d rng).2).
Proof.
  unfold train_on.
  change (node2vec_args (with_baseline_graphs gs d)) with (node2vec_args d).
  cbn [with_baseline_graphs contamination baseline_embeddings].
  destruct (nodes_of g); [done|].
  destruct (Node2Vec B g (node2vec_args d) rng) as [[e|walks] rng1]; [done|].
  destruct (node2vec_fit B (node2vec_args d) walks 10 1 4 rng1) as [[e|model] rng2]; [done|].
  destruct (found_embeddings model _); [done|].
  by destruct (IsolationForest_fit B 100 (contamination d) 42 _).
Qed.

(* ===================================================================== *)
(** ** Properties of [train] *)
(* ===================================================================== *)

Lemma learn_baseline_lookup wv nodes (b : gmap string (list Q)) k :
  learn_baseline wv nodes b !! k
  = match (if decide (k ∈ nodes) then wv !! k else None) with
    | Some e => Some e
    | None => b !! k
    end.
Proof.
  unfold learn_baseline. revert b. induction nodes as [|node rest IH]; intros b.
  - cbn [foldl]. rewrite decide_False by apply not_elem_of_nil. done.
  - cbn [foldl]. rewrite IH. unfold str.
    destruct (decide (k ∈ rest)) as [Hin|Hnin].
    + rewrite decide_True by (right; done).
      destruct (wv !! k) as [e|] eqn:Hk; [done|].
      destruct (wv !! node) as [e'|] eqn:Hn; [|done].
      rewrite lookup_insert_ne; [done|]. intros ->. congruence.
    + destruct (decide (k = node)) as [->|Hne].
      * rewrite decide_True by left.
        destruct (wv !! node) as [e|]; [by rewrite lookup_insert_eq | done].
      * rewrite decide_False by (intros Hc; apply elem_of_cons in Hc; tauto).
        destruct (wv !! node) as [e|]; [by rewrite lookup_insert_ne | done].
Qed.

(** C8.  Training on a non-empty sequence of graphs is training on its
    last graph [g]: the walks are generated on [g], the Word2Vec vectors
    learnt from these walks are stored and copied into
    [baseline_embeddings] for the nodes of [g], and the forest is fitted on
    the embeddings of the nodes of [g]; when [g] has no node nothing is
    trained.  The earlier graphs play no part: the run leaves the detector
    and the random state exactly as a run on [g] alone does, the recorded
    [baseline_graphs] apart. *)
Theorem train_uses_last_graph B gs g s :
  exists s1,
    train B (gs ++ [g]) s = (inr tt, s1) /\
    baseline_graphs (self s1) = gs ++ [g] /\
    (nodes_of g = [] ->
     isolation_forest (self s1) = isolation_forest (self s) /\
     node2vec_model (self s1) = node2vec_model (self s) /\
     baseline_embeddings (self s1) = baseline_embeddings (self s)) /\
    (forall walks rng1 model rng2,
       nodes_of g <> [] ->
       Node2Vec B g (node2vec_args (self s)) (global_rng s) = (inr walks, rng1) ->
       node2vec_fit B (node2vec_args (self s)) walks 10 1 4 rng1 = (inr model, rng2) ->
       node2vec_model (self s1) = Some model /\
       (forall key,
          baseline_embeddings (self s1) !! key
          = match (if decide (key ∈ nodes_of g) then model !! key else None) with
            | Some e => Some e
            | None => baseline_embeddings (self s) !! key
            end) /\
       (forall forest,
          found_embeddings model (nodes_of g) <> [] ->
          IsolationForest_fit B 100 (contamination (self s)) 42
            (found_embeddings model (nodes_of g)) = inr forest ->
          isolation_forest (self s1) = Some forest)) /\
    (exists s2,
       train B [g] s = (inr tt, s2) /\
       self s1 = with_baseline_graphs (gs ++ [g]) (self s2) /\
       global_rng s1 = global_rng s2).
Proof.
  destruct (train_run B (gs ++ [g]) s) as (s1 & H1 & Hs1 & Hr1 & _).
  destruct (train_run B [g] s) as (s2 & H2 & Hs2 & Hr2 & _).
  exists s1. split; [done|].
  assert (Hself : self s1
                  = with_baseline_graphs (gs ++ [g])
                      (train_on B g (self s) (global_rng s)).1).
  { rewrite Hs1. unfold train_outcome. rewrite last_snoc.
    by rewrite train_on_baseline_graphs. }
  split; [by rewrite Hself|]. split; [|split].
  - intros Hn. rewrite Hself. unfold train_on. by rewrite Hn.
  - intros walks rng1 model rng2 Hn E1 E2. rewrite Hself. unfold train_on.
    destruct (nodes_of g) as [|n0 ns] eqn:Hnodes; [done|].
    rewrite E1, E2.
    destruct (found_embeddings model (n0 :: ns)) as [|e0 el] eqn:E3.
    + simpl. split; [done|]. split; [apply learn_baseline_lookup|].
      intros forest Hne. by destruct Hne.
    + destruct (IsolationForest_fit B 100 (contamination (self s)) 42 (e0 :: el))
        as [e|f] eqn:E4; simpl.
      * split; [done|]. split; [apply learn_baseline_lookup|]. intros forest _ Hc.
        discriminate.
      * split; [done|]. split; [apply learn_baseline_lookup|]. intros forest _ Hc.
        by injection Hc as ->.
  - exists s2. split; [done|].
    rewrite Hs1, Hs2, Hr1, Hr2. unfold train_outcome.
    rewrite last_snoc. simpl. rewrite !train_on_baseline_graphs. simpl. done.
Qed.

Lemma train_uses_last_graph_witness :
  exists s1,
    train Toy.backend ([Toy.g0] ++ [Toy.g3]) (Toy.machine Toy.trained Toy.g0 2)
    = (inr tt, s1) /\
    baseline_graphs (self s1) = [Toy.g0] ++ [Toy.g3] /\
    node2vec_model (self s1)
    = Some (list_to_map (omap (Toy.embed 2) [["a"]; ["bb"]; ["ghost"]])) /\
    isolation_forest (self s1) = Some (Toy.forest (inject_Z 42 / 10)).
Proof.
  destruct (train_uses_last_graph Toy.backend [Toy.g0] Toy.g3
              (Toy.machine Toy.trained Toy.g0 2)) as (s1 & H & Hb & _ & Hsucc & _).
  exists s1. split; [exact H|]. split; [exact Hb|].
  destruct (Hsucc [["a"]; ["bb"]; ["ghost"]] 2%Z
              (list_to_map (omap (Toy.embed 2) [["a"]; ["bb"]; ["ghost"]])) 3%Z)
    as (Hm & _ & Hforest); [discriminate | reflexivity | reflexivity |].
  split; [exact Hm|].
  apply Hforest; [vm_compute; discriminate | reflexivity].
Defined.

(** A degenerate training leaves [self.isolation_forest] as it was. *)
Lemma degenerate_training_keeps_forest B clean_graphs d rng :
  degenerate_training B clean_graphs d rng ->
  isolation_forest (train_outcome B clean_graphs d rng).1 = isolation_forest d.
Proof.
  unfold train_outcome.
  intros [-> | [(g & Hl & Hn) | (g & walks & rng1 & model & rng2 & Hl & H1 & H2 & H3)]].
  - done.
  - rewrite Hl. unfold train_on. by rewrite Hn.
  - rewrite Hl. unfold train_on.
    change (node2vec_args (with_baseline_graphs clean_graphs d)) with (node2vec_args d).
    destruct (nodes_of g); [done|]. by rewrite H1, H2, H3.
Qed.

(** C6, as worded, fails: a detector fitted by [train [g3]] is still fitted
    after [train []], and its next [detect] returns scores. *)
Lemma train_empty_keeps_fitted_forest :
  exists s1 s2 r s3,
    train Toy.backend [Toy.g3] (Toy.machine default_detector Toy.g3 1) = (inr tt, s1) /\
    train Toy.backend [] s1 = (inr tt, s2) /\
    isolation_forest (self s2) <> None /\
    detect Toy.backend s2 = (inr r, s3) /\
    ~ is_empty_result r.
Proof.
  set (s1 := (train Toy.backend [Toy.g3] (Toy.machine default_detector Toy.g3 1)).2).
  set (s2 := (train Toy.backend [] s1).2).
  exists s1, s2, (Toy.result_of (detect Toy.backend s2)), (detect Toy.backend s2).2.
  split; [vm_compute; reflexivity|]. split; [vm_compute; reflexivity|].
  split; [vm_compute; discriminate|]. split; [vm_compute; reflexivity|].
  intros (_ & H & _).
  apply (f_equal (fun m : gmap string Q => m !! "ghost")) in H.
  vm_compute in H. discriminate.
Qed.

(** C6, amended.  A detector without a fitted forest is still without one
    after a degenerate training, [train] raises nothing, and every later
    [detect] of that detector, on whatever graph, returns an empty result. *)
Theorem train_degenerate_stays_untrained B clean_graphs s :
  isolation_forest (self s) = None ->
  degenerate_training B clean_graphs (self s) (global_rng s) ->
  exists s1,
    train B clean_graphs s = (inr tt, s1) /\
    isolation_forest (self s1) = None /\
    forall s2, self s2 = self s1 ->
      exists r s3, detect B s2 = (inr r, s3) /\ is_empty_result r.
Proof.
  intros Hnone Hdeg.
  destruct (train_run B clean_graphs s) as (s1 & H1 & Hs1 & _).
  exists s1. split; [done|].
  assert (Hf : isolation_forest (self s1) = None).
  { rewrite Hs1, degenerate_training_keeps_forest by done. done. }
  split; [done|]. intros s2 Hs2.
  destruct (detect_run B s2) as (s3 & H3 & _).
  eexists _, s3. split; [exact H3|].
  unfold is_empty_result. simpl. unfold detect_payload, detect_batch.
  rewrite Hs2, Hf. by destruct (nodes_of (graph s2)).
Qed.

Lemma train_degenerate_stays_untrained_witness :
  isolation_forest (self (Toy.machine default_detector Toy.g3 1)) = None /\
  degenerate_training Toy.backend [Toy.g3; Toy.g0]
    (self (Toy.machine default_detector Toy.g3 1))
    (global_rng (Toy.machine default_detector Toy.g3 1)) /\
  exists s1,
    train Toy.backend [Toy.g3; Toy.g0] (Toy.machine default_detector Toy.g3 1)
    = (inr tt, s1) /\
    isolation_forest (self s1) = None /\
    forall s2, self s2 = self s1 ->
      exists r s3, detect Toy.backend s2 = (inr r, s3) /\ is_empty_result r.
Proof.
  assert (Hd : degenerate_training Toy.backend [Toy.g3; Toy.g0]
                 (self (Toy.machine default_detector Toy.g3 1))
                 (global_rng (Toy.machine default_detector Toy.g3 1))).
  { right. left. exists Toy.g0. split; reflexivity. }
  split; [reflexivity|]. split; [exact Hd|].
  exact (train_degenerate_stays_untrained Toy.backend [Toy.g3; Toy.g0]
           (Toy.machine default_detector Toy.g3 1) eq_refl Hd).
Defined.

(* ===================================================================== *)
(** ** Where the randomness comes from *)
(* ===================================================================== *)

(** C5, as worded, fails: the detector passes no seed to [Node2Vec], so
    two runs with the same detector, the same graphs and the same clock,
    started from different process-wide random states, score the nodes
    differently. *)
Lemma ambient_randomness_changes_scores :
  exists r1 r2 s1 s2,
    train_then_detect Toy.backend [Toy.g3] (Toy.machine default_detector Toy.g3 (-1))
    = (inr r1, s1) /\
    train_then_detect Toy.backend [Toy.g3] (Toy.machine default_detector Toy.g3 0)
    = (inr r2, s2) /\
    seed (node2vec_args default_detector) = None /\
    confidence_scores r1 <> confidence_scores r2.
Proof.
  set (o1 := train_then_detect Toy.backend [Toy.g3]
               (Toy.machine default_detector Toy.g3 (-1))).
  set (o2 := train_then_detect Toy.backend [Toy.g3]
               (Toy.machine default_detector Toy.g3 0)).
  exists (Toy.result_of o1), (Toy.result_of o2), o1.2, o2.2.
  split; [vm_compute; reflexivity|]. split; [vm_compute; reflexivity|].
  split; [reflexivity|].
  intros H. apply (f_equal (fun m : gmap string Q => m !! "ghost")) in H.
  vm_compute in H. discriminate.
Qed.

(** C5, amended.  Two runs of [train] followed by [detect] that agree on
    the detector, the graphs and the process-wide random state return the
    same detector, flagged set, confidence scores and ground truth,
    whatever their clocks and logs.  The randomness comes from three
    places: the walks are generated by [Node2Vec] without a seed, from the
    process-wide random state; Word2Vec is trained from the state the walks
    leave; the forest is fitted with the fixed random state 42; and
    [detect] then regenerates its embeddings from the process-wide random
    state that training has left. *)
Theorem train_then_detect_deterministic B clean_graphs s1 s2 :
  self s1 = self s2 ->
  graph s1 = graph s2 ->
  global_rng s1 = global_rng s2 ->
  exists r1 r2 s1' s2',
    train_then_detect B clean_graphs s1 = (inr r1, s1') /\
    train_then_detect B clean_graphs s2 = (inr r2, s2') /\
    self s1' = self s2' /\
    anomalous_uav_ids r1 = anomalous_uav_ids r2 /\
    confidence_scores r1 = confidence_scores r2 /\
    ground_truth r1 = ground_truth r2 /\
    seed (node2vec_args (self s1)) = None /\
    (forall g walks rng1 model rng2 forest,
       last clean_graphs = Some g ->
       Node2Vec B g (node2vec_args (self s1)) (global_rng s1) = (inr walks, rng1) ->
       node2vec_fit B (node2vec_args (self s1)) walks 10 1 4 rng1 = (inr model, rng2) ->
       found_embeddings model (nodes_of g) <> [] ->
       IsolationForest_fit B 100 (contamination (self s1)) 42
         (found_embeddings model (nodes_of g)) = inr forest ->
       node2vec_model (self s1') = Some model /\
       isolation_forest (self s1') = Some forest /\
       (anomalous_uav_ids r1, confidence_scores r1, ground_truth r1)
       = detect_payload B (self s1') (graph s1) rng2).
Proof.
  intros Hs Hg Hr. unfold train_then_detect, bind.
  destruct (train_run B clean_graphs s1) as (t1 & E1 & Hs1 & Hr1 & Hg1 & _).
  destruct (train_run B clean_graphs s2) as (t2 & E2 & Hs2 & Hr2 & Hg2 & _).
  rewrite E1, E2.
  destruct (detect_run B t1) as (u1 & D1 & Hf1 & _).
  destruct (detect_run B t2) as (u2 & D2 & Hf2 & _).
  rewrite D1, D2. eexists _, _, u1, u2.
  split; [reflexivity|]. split; [reflexivity|]. simpl.
  assert (self t1 = self t2) by (rewrite Hs1, Hs2, Hs, Hr; done).
  assert (global_rng t1 = global_rng t2) by (rewrite Hr1, Hr2, Hs, Hr; done).
  assert (graph t1 = graph t2) by congruence.
  split; [congruence|]. split; [congruence|]. split; [congruence|].
  split; [congruence|]. split; [done|].
  intros g walks rng1 model rng2 forest Hlast W1 W2 Hne W3.
  assert (Hout : train_outcome B clean_graphs (self s1) (global_rng s1)
                 = (with_isolation_forest (Some forest)
                      (with_baseline_embeddings
                         (learn_baseline model (nodes_of g) (baseline_embeddings (self s1)))
                         (with_node2vec_model (Some model)
                            (with_baseline_graphs clean_graphs (self s1)))), rng2)).
  { unfold train_outcome. rewrite Hlast. unfold train_on.
    change (node2vec_args (with_baseline_graphs clean_graphs (self s1)))
      with (node2vec_args (self s1)).
    cbn [with_baseline_graphs contamination baseline_embeddings].
    destruct (nodes_of g) as [|n0 ns] eqn:Hnodes; [by destruct Hne|].
    rewrite W1, W2.
    destruct (found_embeddings model (n0 :: ns)) as [|e0 el]; [by destruct Hne|].
    by rewrite W3. }
  rewrite Hout in Hs1, Hr1. simpl in Hs1, Hr1.
  rewrite Hf1. split; [by rewrite Hs1|]. split; [by rewrite Hs1|].
  rewrite Hg1, Hr1.
  by destruct (detect_payload B (self t1) (graph s1) rng2) as [[a c] gt].
Qed.

Lemma train_then_detect_deterministic_witness :
  self (Toy.machine default_detector Toy.g3 1)
  = self (Toy.late_machine default_detector Toy.g3 1) /\
  graph (Toy.machine default_detector Toy.g3 1)
  = graph (Toy.late_machine default_detector Toy.g3 1) /\
  global_rng (Toy.machine default_detector Toy.g3 1)
  = global_rng (Toy.late_machine default_detector Toy.g3 1) /\
  exists r1 r2 s1' s2',
    train_then_detect Toy.backend [Toy.g3] (Toy.machine default_detector Toy.g3 1)
    = (inr r1, s1') /\
    train_then_detect Toy.backend [Toy.g3] (Toy.late_machine default_detector Toy.g3 1)
    = (inr r2, s2') /\
    self s1' = self s2' /\
    anomalous_uav_ids r1 = anomalous_uav_ids r2 /\
    confidence_scores r1 = confidence_scores r2 /\
    ground_truth r1 = ground_truth r2 /\
    seed (node2vec_args (self (Toy.machine default_detector Toy.g3 1))) = None /\
    node2vec_model (self s1')
    = Some (list_to_map (omap (Toy.embed 1) [["a"]; ["bb"]; ["ghost"]])) /\
    isolation_forest (self s1') = Some (Toy.forest (inject_Z 42 / 10)) /\
    (anomalous_uav_ids r1, confidence_scores r1, ground_truth r1)
    = detect_payload Toy.backend (self s1')
        (graph (Toy.machine default_detector Toy.g3 1)) 2.
Proof.
  split; [reflexivity|]. split; [reflexivity|]. split; [reflexivity|].
  destruct (train_then_detect_deterministic Toy.backend [Toy.g3]
              (Toy.machine default_detector Toy.g3 1)
              (Toy.late_machine default_detector Toy.g3 1) eq_refl eq_refl eq_refl)
    as (r1 & r2 & s1' & s2' & H1 & H2 & Hs & Ha & Hc & Hg & Hseed & Hsrc).
  exists r1, r2, s1', s2'.
  split; [exact H1|]. split; [exact H2|]. split; [exact Hs|]. split; [exact Ha|].
  split; [exact Hc|]. split; [exact Hg|]. split; [exact Hseed|].
  apply (Hsrc Toy.g3 [["a"]; ["bb"]; ["ghost"]] 1%Z
           (list_to_map (omap (Toy.embed 1) [["a"]; ["bb"]; ["ghost"]])) 2%Z
           (Toy.forest (inject_Z 42 / 10))).
  - reflexivity.
  - reflexivity.
  - reflexivity.
  - vm_compute. discriminate.
  - reflexivity.
Defined.

(* ===================================================================== *)
(** ** Further properties of [detect] *)
(* ===================================================================== *)

(** A result that is not empty comes from a scored batch. *)
Lemma detect_nonempty_payload B s r s' :
  detect B s = (inr r, s') ->
  ~ is_empty_result r ->
  exists node_list x xs predictions gt,
    detect_batch B (self s) (graph s) (global_rng s)
    = Some (node_list, x :: xs, predictions) /\
    labels_from (graph s) (nodes_of (graph s)) ∅ = Some gt /\
    anomalous_uav_ids r
    = (score_loop (foldl Qmin x xs) (foldl Qmax x xs - foldl Qmin x xs)%Q
                  node_list (x :: xs) predictions ∅ ∅).2 /\
    confidence_scores r
    = (score_loop (foldl Qmin x xs) (foldl Qmax x xs - foldl Qmin x xs)%Q
                  node_list (x :: xs) predictions ∅ ∅).1 /\
    ground_truth r = gt.
Proof.
  intros H Hne. apply detect_returns in H as (Ha & Hc & Hg & _).
  destruct (detect_payload_cases B (self s) (graph s) (global_rng s))
    as [Hp | (nl & x & xs & pr & gt & Hb & Hl & Hp)];
    rewrite Hp in Ha, Hc, Hg; simpl in Ha, Hc, Hg.
  - by destruct Hne.
  - by exists nl, x, xs, pr, gt.
Qed.

Lemma score_loop_flagged_iff lo rg nl sc pr (cs : gmap string Q) (fl : gset string) node :
  node ∈ (score_loop lo rg nl sc pr cs fl).2 <->
  node ∈ fl \/
  exists i, nl !! i = Some node /\ is_Some (sc !! i) /\ pr !! i = Some (-1)%Z.
Proof.
  revert sc pr cs fl. induction nl as [|n nl IH]; intros sc pr cs fl.
  - simpl. split; [by left|]. intros [H|(i & H & _)]; [done|]. by destruct i.
  - destruct sc as [|score sc].
    { simpl. split; [by left|]. intros [H|(i & _ & [? H] & _)]; [done|]. by destruct i. }
    destruct pr as [|pred pr].
    { simpl. split; [by left|]. intros [H|(i & _ & _ & H)]; [done|]. by destruct i. }
    simpl. rewrite IH. split.
    + intros [H|(i & H1 & H2 & H3)].
      * destruct (pred =? -1)%Z eqn:Hp; [|by left].
        apply elem_of_union in H as [H|H]; [|by left].
        apply elem_of_singleton in H as ->. right. exists 0%nat. simpl.
        apply Z.eqb_eq in Hp. subst. eauto.
      * right. exists (S i). by simpl.
    + intros [H|(i & H1 & H2 & H3)].
      * left. destruct (pred =? -1)%Z; set_solver.
      * destruct i as [|i]; simpl in *.
        -- left. injection H1 as ->. injection H3 as ->. simpl. set_solver.
        -- right. by exists i.
Qed.

Lemma score_loop_lookup_notin lo rg nl sc pr (cs : gmap string Q) (fl : gset string) node :
  node ∉ nl -> (score_loop lo rg nl sc pr cs fl).1 !! node = cs !! node.
Proof.
  revert sc pr cs fl. induction nl as [|n nl IH]; intros sc pr cs fl Hn; [done|].
  destruct sc as [|score sc]; [done|]. destruct pr as [|pred pr]; [done|].
  simpl. apply not_elem_of_cons in Hn as [Hne Hn].
  rewrite IH by done. by rewrite lookup_insert_ne.
Qed.

Lemma score_loop_lookup_index lo rg nl sc pr (cs : gmap string Q) (fl : gset string)
    i node raw :
  NoDup nl -> nl !! i = Some node -> sc !! i = Some raw -> is_Some (pr !! i) ->
  (score_loop lo rg nl sc pr cs fl).1 !! node = Some (normalized_score raw lo rg).
Proof.
  revert i sc pr cs fl. induction nl as [|n nl IH]; intros i sc pr cs fl Hnd Hi Hs Hp.
  - by destruct i.
  - apply NoDup_cons in Hnd as [Hn Hnd].
    destruct sc as [|score sc]; [by destruct i|].
    destruct pr as [|pred pr]; [by destruct i; destruct Hp|].
    destruct i as [|i]; simpl in *.
    + injection Hi as ->. injection Hs as ->.
      rewrite score_loop_lookup_notin by done. by rewrite lookup_insert_eq.
    + by eapply IH.
Qed.

(** X1.  [detect] does not modify the detector, and reads the clock exactly
    three times. *)
Theorem detect_leaves_detector_unchanged B s :
  self (detect B s).2 = self s /\
  wall_clock (detect B s).2 = wall_clock s /\
  ticks (detect B s).2 = (3 + ticks s)%nat.
Proof.
  destruct (detect_run B s) as (s' & Heq & Hs & Hg & Hc & Ht).
  rewrite Heq. simpl. done.
Qed.

(** X2.  On the entry guard (graph without nodes, or no fitted forest) no
    library is called and nothing is logged: the random state and the log
    are as before. *)
Theorem detect_guard_is_silent B s :
  nodes_of (graph s) = [] \/ isolation_forest (self s) = None ->
  global_rng (detect B s).2 = global_rng s /\ log (detect B s).2 = log s.
Proof.
  intros Hdeg. unfold detect, bind, time_time, graph_nodes, get_self. simpl.
  destruct Hdeg as [-> | ->]; simpl; [done|].
  by destruct (nodes_of (graph s)).
Qed.

Lemma detect_guard_is_silent_witness :
  (nodes_of (graph (Toy.machine Toy.trained Toy.g0 4)) = [] \/
   isolation_forest (self (Toy.machine Toy.trained Toy.g0 4)) = None) /\
  global_rng (detect Toy.backend (Toy.machine Toy.trained Toy.g0 4)).2
  = global_rng (Toy.machine Toy.trained Toy.g0 4) /\
  log (detect Toy.backend (Toy.machine Toy.trained Toy.g0 4)).2
  = log (Toy.machine Toy.trained Toy.g0 4).
Proof.
  assert (H : nodes_of (graph (Toy.machine Toy.trained Toy.g0 4)) = [] \/
              isolation_forest (self (Toy.machine Toy.trained Toy.g0 4)) = None)
    by (left; reflexivity).
  split; [exact H|].
  exact (detect_guard_is_silent Toy.backend (Toy.machine Toy.trained Toy.g0 4) H).
Defined.

(** X3.  In a non-empty result the flagged identities are exactly the
    nodes of the batch that the forest predicts as outliers ([-1]) and
    that the scoring loop reaches. *)
Theorem detect_flags_predicted_outliers B s r s' :
  detect B s = (inr r, s') ->
  ~ is_empty_result r ->
  exists node_list scores predictions,
    detect_batch B (self s) (graph s) (global_rng s)
    = Some (node_list, scores, predictions) /\
    forall node,
      node ∈ anomalous_uav_ids r <->
      exists i, node_list !! i = Some node /\ is_Some (scores !! i) /\
                predictions !! i = Some (-1)%Z.
Proof.
  intros H Hne.
  destruct (detect_nonempty_payload B s r s' H Hne)
    as (nl & x & xs & pr & gt & Hb & _ & Ha & _).
  exists nl, (x :: xs), pr. split; [done|]. intros node.
  rewrite Ha, score_loop_flagged_iff. split; [|by right].
  intros [Hin|Hin]; [|done]. by apply not_elem_of_empty in Hin.
Qed.

Lemma detect_flags_predicted_outliers_witness :
  detect Toy.backend (Toy.machine Toy.trained Toy.g3 1)
  = (inr (Toy.result_of Toy.run_trained), Toy.run_trained.2) /\
  ~ is_empty_result (Toy.result_of Toy.run_trained) /\
  exists node_list scores predictions,
    detect_batch Toy.backend Toy.trained Toy.g3 1
    = Some (node_list, scores, predictions) /\
    forall node,
      node ∈ anomalous_uav_ids (Toy.result_of Toy.run_trained) <->
      exists i, node_list !! i = Some node /\ is_Some (scores !! i) /\
                predictions !! i = Some (-1)%Z.
Proof.
  assert (H : detect Toy.backend (Toy.machine Toy.trained Toy.g3 1)
              = (inr (Toy.result_of Toy.run_trained), Toy.run_trained.2))
    by (vm_compute; reflexivity).
  split; [exact H|]. split; [exact toy_result_not_empty|].
  exact (detect_flags_predicted_outliers Toy.backend
           (Toy.machine Toy.trained Toy.g3 1) _ _ H toy_result_not_empty).
Defined.

(** X4.  When the nodes of the graph are distinct, every node of the batch
    that the scoring loop reaches has a confidence score, computed from its
    own raw score by min-max scaling over the batch. *)
Theorem detect_scores_every_batch_node B s r s' :
  detect B s = (inr r, s') ->
  ~ is_empty_result r ->
  NoDup (nodes_of (graph s)) ->
  exists node_list scores predictions lo hi,
    detect_batch B (self s) (graph s) (global_rng s)
    = Some (node_list, scores, predictions) /\
    is_min lo scores /\ is_max hi scores /\
    forall i node raw,
      node_list !! i = Some node -> scores !! i = Some raw -> is_Some (predictions !! i) ->
      confidence_scores r !! node = Some (normalized_score raw lo (hi - lo)).
Proof.
  intros H Hne Hnd.
  destruct (detect_nonempty_payload B s r s' H Hne)
    as (nl & x & xs & pr & gt & Hb & _ & _ & Hc & _).
  exists nl, (x :: xs), pr, (foldl Qmin x xs), (foldl Qmax x xs).
  split; [done|]. split; [apply foldl_Qmin_is_min|]. split; [apply foldl_Qmax_is_max|].
  intros i node raw Hi Hs Hp. rewrite Hc.
  apply detect_batch_nodes in Hb as (_ & _ & _ & Hnd').
  eapply score_loop_lookup_index; eauto.
Qed.

Lemma detect_scores_every_batch_node_witness :
  detect Toy.backend (Toy.machine Toy.trained Toy.g3 1)
  = (inr (Toy.result_of Toy.run_trained), Toy.run_trained.2) /\
  ~ is_empty_result (Toy.result_of Toy.run_trained) /\
  NoDup (nodes_of (graph (Toy.machine Toy.trained Toy.g3 1))) /\
  exists node_list scores predictions lo hi,
    detect_batch Toy.backend Toy.trained Toy.g3 1
    = Some (node_list, scores, predictions) /\
    is_min lo scores /\ is_max hi scores /\
    forall i node raw,
      node_list !! i = Some node -> scores !! i = Some raw -> is_Some (predictions !! i) ->
      confidence_scores (Toy.result_of Toy.run_trained) !! node
      = Some (normalized_score raw lo (hi - lo)).
Proof.
  assert (H : detect Toy.backend (Toy.machine Toy.trained Toy.g3 1)
              = (inr (Toy.result_of Toy.run_trained), Toy.run_trained.2))
    by (vm_compute; reflexivity).
  assert (Hnd : NoDup (nodes_of (graph (Toy.machine Toy.trained Toy.g3 1))))
    by (apply (bool_decide_unpack _); vm_compute; exact I).
  split; [exact H|]. split; [exact toy_result_not_empty|]. split; [exact Hnd|].
  exact (detect_scores_every_batch_node Toy.backend
           (Toy.machine Toy.trained Toy.g3 1) _ _ H toy_result_not_empty Hnd).
Defined.

(** X5.  When the forest returns no more scores than there are nodes and
    predictions, the nodes are distinct, and the batch's minimum raw score
    is below its maximum, the scaling attains both ends: some node has
    confidence 1 (a node with the minimal raw score) and some node has
    confidence 0 (a node with the maximal raw score). *)
Theorem detect_extreme_confidences B s r s' node_list scores predictions :
  detect B s = (inr r, s') ->
  ~ is_empty_result r ->
  NoDup (nodes_of (graph s)) ->
  detect_batch B (self s) (graph s) (global_rng s)
  = Some (node_list, scores, predictions) ->
  (length scores <= length node_list)%nat ->
  (length scores <= length predictions)%nat ->
  (exists x y, x ∈ scores /\ y ∈ scores /\ (x < y)%Q) ->
  (exists node c, confidence_scores r !! node = Some c /\ (c == 1)%Q) /\
  (exists node c, confidence_scores r !! node = Some c /\ (c == 0)%Q).
Proof.
  intros H Hne Hnd Hb Hl1 Hl2 (x0 & y0 & Hx0 & Hy0 & Hlt).
  destruct (detect_nonempty_payload B s r s' H Hne)
    as (nl & x & xs & pr & gt & Hb' & _ & _ & Hc & _).
  rewrite Hb in Hb'. injection Hb' as -> -> ->.
  pose proof (foldl_Qmin_is_min x xs) as [Hmin_in Hmin].
  pose proof (foldl_Qmax_is_max x xs) as [Hmax_in Hmax].
  set (lo := foldl Qmin x xs) in *. set (hi := foldl Qmax x xs) in *.
  assert (Hrange : (lo < hi)%Q).
  { eapply Qle_lt_trans; [apply (Hmin x0 Hx0)|].
    eapply Qlt_le_trans; [apply Hlt | apply (Hmax y0 Hy0)]. }
  apply detect_batch_nodes in Hb as (_ & _ & _ & Hnd'). specialize (Hnd' Hnd).
  assert (Hreach : forall raw, raw ∈ x :: xs ->
            exists node, confidence_scores r !! node
                         = Some (normalized_score raw lo (hi - lo))).
  { intros raw Hraw. apply list_elem_of_lookup in Hraw as [i Hi].
    pose proof (lookup_lt_Some _ _ _ Hi) as Hlen.
    destruct (lookup_lt_is_Some_2 nl i) as [node Hnode]; [lia|].
    exists node. rewrite Hc. eapply score_loop_lookup_index; eauto.
    apply lookup_lt_is_Some_2. lia. }
  split.
  - destruct (Hreach lo Hmin_in) as [node Hnode].
    exists node, (normalized_score lo lo (hi - lo)). split; [done|].
    rewrite normalized_score_formula by done.
    unfold Qminus at 2. rewrite Qplus_opp_r. unfold Qdiv. rewrite Qmult_0_l. lra.
  - destruct (Hreach hi Hmax_in) as [node Hnode].
    exists node, (normalized_score hi lo (hi - lo)). split; [done|].
    rewrite normalized_score_formula by done.
    unfold Qdiv. rewrite Qmult_inv_r by lra. lra.
Qed.

Lemma detect_extreme_confidences_witness :
  detect Toy.backend (Toy.machine Toy.trained Toy.g3 1)
  = (inr (Toy.result_of Toy.run_trained), Toy.run_trained.2) /\
  ~ is_empty_result (Toy.result_of Toy.run_trained) /\
  NoDup (nodes_of (graph (Toy.machine Toy.trained Toy.g3 1))) /\
  detect_batch Toy.backend Toy.trained Toy.g3 1
  = Some (Toy.batch_trained.1.1, Toy.batch_trained.1.2, Toy.batch_trained.2) /\
  (length Toy.batch_trained.1.2 <= length Toy.batch_trained.1.1)%nat /\
  (length Toy.batch_trained.1.2 <= length Toy.batch_trained.2)%nat /\
  (exists x y, x ∈ Toy.batch_trained.1.2 /\ y ∈ Toy.batch_trained.1.2 /\ (x < y)%Q) /\
  (exists node c,
     confidence_scores (Toy.result_of Toy.run_trained) !! node = Some c /\ (c == 1)%Q) /\
  (exists node c,
     confidence_scores (Toy.result_of Toy.run_trained) !! node = Some c /\ (c == 0)%Q).
Proof.
  assert (H : detect Toy.backend (Toy.machine Toy.trained Toy.g3 1)
              = (inr (Toy.result_of Toy.run_trained), Toy.run_trained.2))
    by (vm_compute; reflexivity).
  assert (Hnd : NoDup (nodes_of (graph (Toy.machine Toy.trained Toy.g3 1))))
    by (apply (bool_decide_unpack _); vm_compute; exact I).
  assert (Hb : detect_batch Toy.backend Toy.trained Toy.g3 1
               = Some (Toy.batch_trained.1.1, Toy.batch_trained.1.2, Toy.batch_trained.2))
    by (vm_compute; reflexivity).
  assert (Hl1 : (length Toy.batch_trained.1.2 <= length Toy.batch_trained.1.1)%nat)
    by (vm_compute; lia).
  assert (Hl2 : (length Toy.batch_trained.1.2 <= length Toy.batch_trained.2)%nat)
    by (vm_compute; lia).
  assert (Hxy : exists x y, x ∈ Toy.batch_trained.1.2 /\ y ∈ Toy.batch_trained.1.2 /\
                            (x < y)%Q).
  { exists (default 0%Q (Toy.batch_trained.1.2 !! 2%nat)),
           (default 0%Q (Toy.batch_trained.1.2 !! 0%nat)).
    split; [apply (list_elem_of_lookup_2 _ 2%nat); vm_compute; reflexivity|].
    split; [apply (list_elem_of_lookup_2 _ 0%nat); vm_compute; reflexivity|].
    vm_compute. reflexivity. }
  split; [exact H|]. split; [exact toy_result_not_empty|]. split; [exact Hnd|].
  split; [exact Hb|]. split; [exact Hl1|]. split; [exact Hl2|]. split; [exact Hxy|].
  exact (detect_extreme_confidences Toy.backend (Toy.machine Toy.trained Toy.g3 1)
           _ _ _ _ _ H toy_result_not_empty Hnd Hb Hl1 Hl2 Hxy).
Defined.

(** X6.  The invariant of the result holds in the regular case: when every
    node of the graph has an embedding and the forest returns at least one
    score and one prediction per node, every node of the graph is a key of
    both the confidence-score map and the ground-truth map. *)
Theorem detect_covers_every_node B s r s' scores predictions :
  detect B s = (inr r, s') ->
  ~ is_empty_result r ->
  detect_batch B (self s) (graph s) (global_rng s)
  = Some (nodes_of (graph s), scores, predictions) ->
  (length (nodes_of (graph s)) <= length scores)%nat ->
  (length (nodes_of (graph s)) <= length predictions)%nat ->
  covers_every_node (graph s) r.
Proof.
  intros H Hne Hb Hl1 Hl2.
  destruct (detect_nonempty_payload B s r s' H Hne)
    as (nl & x & xs & pr & gt & Hb' & Hl & _ & Hc & Hg).
  rewrite Hb in Hb'. injection Hb' as <- -> ->.
  left. intros node Hnode. split.
  - apply elem_of_dom. rewrite Hc, score_loop_dom, dom_empty_L.
    rewrite take_ge by lia. set_solver.
  - apply elem_of_dom. rewrite Hg, (labels_from_dom _ _ _ _ Hl). set_solver.
Qed.

Lemma detect_covers_every_node_witness :
  detect Toy.backend (Toy.machine Toy.trained Toy.g3 1)
  = (inr (Toy.result_of Toy.run_trained), Toy.run_trained.2) /\
  ~ is_empty_result (Toy.result_of Toy.run_trained) /\
  detect_batch Toy.backend Toy.trained Toy.g3 1
  = Some (nodes_of Toy.g3, Toy.batch_trained.1.2, Toy.batch_trained.2) /\
  (length (nodes_of Toy.g3) <= length Toy.batch_trained.1.2)%nat /\
  (length (nodes_of Toy.g3) <= length Toy.batch_trained.2)%nat /\
  covers_every_node Toy.g3 (Toy.result_of Toy.run_trained).
Proof.
  assert (H : detect Toy.backend (Toy.machine Toy.trained Toy.g3 1)
              = (inr (Toy.result_of Toy.run_trained), Toy.run_trained.2))
    by (vm_compute; reflexivity).
  assert (Hb : detect_batch Toy.backend Toy.trained Toy.g3 1
               = Some (nodes_of Toy.g3, Toy.batch_trained.1.2, Toy.batch_trained.2))
    by (vm_compute; reflexivity).
  assert (Hl1 : (length (nodes_of Toy.g3) <= length Toy.batch_trained.1.2)%nat)
    by (vm_compute; lia).
  assert (Hl2 : (length (nodes_of Toy.g3) <= length Toy.batch_trained.2)%nat)
    by (vm_compute; lia).
  split; [exact H|]. split; [exact toy_result_not_empty|].
  split; [exact Hb|]. split; [exact Hl1|]. split; [exact Hl2|].
  exact (detect_covers_every_node Toy.backend (Toy.machine Toy.trained Toy.g3 1)
           _ _ _ _ H toy_result_not_empty Hb Hl1 Hl2).
Defined.

(** X7.  The ground truth of a non-empty result is read off the graph
    alone: two runs on the same graph, with whatever libraries, detector,
    random state and clock, return the same ground-truth map. *)
Theorem detect_ground_truth_of_graph_only B1 B2 s1 s2 r1 r2 s1' s2' :
  detect B1 s1 = (inr r1, s1') ->
  detect B2 s2 = (inr r2, s2') ->
  graph s1 = graph s2 ->
  ~ is_empty_result r1 -> ~ is_empty_result r2 ->
  ground_truth r1 = ground_truth r2.
Proof.
  intros H1 H2 Hg Hn1 Hn2.
  destruct (detect_nonempty_payload B1 s1 r1 s1' H1 Hn1)
    as (? & ? & ? & ? & gt1 & _ & Hl1 & _ & _ & <-).
  destruct (detect_nonempty_payload B2 s2 r2 s2' H2 Hn2)
    as (? & ? & ? & ? & gt2 & _ & Hl2 & _ & _ & <-).
  rewrite Hg in Hl1. congruence.
Qed.

Lemma toy_sparse_result_not_empty : ~ is_empty_result (Toy.result_of Toy.run_sparse).
Proof.
  intros (_ & _ & H).
  apply (f_equal (fun m : gmap string bool => m !! "a")) in H.
  vm_compute in H. discriminate.
Qed.

Lemma detect_ground_truth_of_graph_only_witness :
  detect Toy.backend (Toy.machine Toy.trained Toy.g3 1)
  = (inr (Toy.result_of Toy.run_trained), Toy.run_trained.2) /\
  detect Toy.sparse_backend (Toy.late_machine Toy.trained Toy.g3 5)
  = (inr (Toy.result_of Toy.run_sparse), Toy.run_sparse.2) /\
  graph (Toy.machine Toy.trained Toy.g3 1) = graph (Toy.late_machine Toy.trained Toy.g3 5) /\
  ~ is_empty_result (Toy.result_of Toy.run_trained) /\
  ~ is_empty_result (Toy.result_of Toy.run_sparse) /\
  ground_truth (Toy.result_of Toy.run_trained) = ground_truth (Toy.result_of Toy.run_sparse).
Proof.
  assert (H1 : detect Toy.backend (Toy.machine Toy.trained Toy.g3 1)
               = (inr (Toy.result_of Toy.run_trained), Toy.run_trained.2))
    by (vm_compute; reflexivity).
  assert (H2 : detect Toy.sparse_backend (Toy.late_machine Toy.trained Toy.g3 5)
               = (inr (Toy.result_of Toy.run_sparse), Toy.run_sparse.2))
    by (vm_compute; reflexivity).
  split; [exact H1|]. split; [exact H2|]. split; [reflexivity|].
  split; [exact toy_result_not_empty|]. split; [exact toy_sparse_result_not_empty|].
  exact (detect_ground_truth_of_graph_only Toy.backend Toy.sparse_backend
           (Toy.machine Toy.trained Toy.g3 1) (Toy.late_machine Toy.trained Toy.g3 5)
           _ _ _ _ H1 H2 eq_refl toy_result_not_empty toy_sparse_result_not_empty).
Defined.

(* ===================================================================== *)
(** ** What [detect] writes to the log *)
(* ===================================================================== *)

#[local] Arguments missing_warnings : simpl never.
#[local] Arguments read_labels : simpl never.

Lemma missing_warnings_cons_found wv node rest e :
  wv !! str node = Some e ->
  missing_warnings wv (node :: rest) = missing_warnings wv rest.
Proof.
  intros H. unfold missing_warnings. rewrite filter_cons.
  rewrite decide_False by congruence. done.
Qed.

Lemma missing_warnings_cons_missing wv node rest :
  wv !! str node = None ->
  missing_warnings wv (node :: rest)
  = (WARNING, "No embedding for node " +:+ str node) :: missing_warnings wv rest.
Proof.
  intros H. unfold missing_warnings. rewrite filter_cons.
  rewrite decide_True by done. done.
Qed.

Lemma detect_embeddings_loop_log wv nodes el nl s :
  log (detect_embeddings_loop wv nodes el nl s).2 = log s ++ missing_warnings wv nodes.
Proof.
  revert el nl s. induction nodes as [|node rest IH]; intros el nl s.
  - simpl. unfold missing_warnings. simpl. by rewrite app_nil_r.
  - simpl. unfold bind, try_except, wv_getitem.
    destruct (wv !! str node) as [e|] eqn:Hwv; simpl.
    + rewrite IH. by erewrite missing_warnings_cons_found.
    + unfold logger, ret. simpl. rewrite IH. simpl.
      rewrite missing_warnings_cons_missing by done.
      by rewrite <- app_assoc.
Qed.

Lemma ground_truth_loop_read nodes acc s :
  ground_truth_loop nodes acc s = (read_labels (graph s) nodes acc, s).
Proof.
  revert acc. induction nodes as [|node rest IH]; intros acc.
  - done.
  - simpl. unfold bind, graph_node_data, read_labels. fold read_labels.
    destruct (node_data_of (node_table (graph s)) node) as [node_data|]; [|done].
    destruct (node_data !! "uav") as [[u|r]|]; simpl; by rewrite ?IH.
Qed.

Lemma detect_log_run B s :
  log (detect B s).2 = log s ++ detect_log B (self s) (graph s) (global_rng s).
Proof.
  unfold detect, detect_log.
  unfold bind at 1. simpl. unfold bind at 1. simpl. unfold bind at 1. simpl.
  destruct (nodes_of (graph s)) as [|n0 ns] eqn:Hnodes; simpl.
  { by rewrite app_nil_r. }
  destruct (isolation_forest (self s)) as [forest|] eqn:Hforest; simpl.
  2: { by rewrite app_nil_r. }
  unfold try_except. unfold bind at 1. simpl. unfold bind at 1, with_global_rng at 1. simpl.
  destruct (Node2Vec B (graph s) (node2vec_args (self s)) (global_rng s)) as [[e|walks] rng1].
  { done. }
  unfold bind at 1, with_global_rng at 1. simpl.
  destruct (node2vec_fit B (node2vec_args (self s)) walks 10 1 4 rng1) as [[e|model] rng2].
  { done. }
  unfold bind at 1. simpl. rewrite Hnodes. unfold bind at 1.
  match goal with |- context [detect_embeddings_loop ?wv ?ns ?el ?nl ?s0] =>
    pose proof (detect_embeddings_loop_log wv ns el nl s0) as Hlog;
    destruct (detect_embeddings_loop_run wv ns el nl s0) as (s1 & Heq1 & Hp1);
    rewrite Heq1 in Hlog |- * end.
  simpl in Hlog |- *. rewrite <- Hnodes in *.
  destruct (found_embeddings model (nodes_of (graph s))) as [|e0 el] eqn:Hemb.
  { simpl. rewrite Hlog. by rewrite <- app_assoc. }
  unfold bind at 1, lift at 1.
  destruct (decision_function forest (e0 :: el)) as [e|scores].
  { simpl. rewrite Hlog. by rewrite <- app_assoc. }
  unfold bind at 1, lift at 1.
  destruct (predict forest (e0 :: el)) as [e|preds].
  { simpl. rewrite Hlog. by rewrite <- app_assoc. }
  destruct scores as [|x xs].
  { simpl. rewrite Hlog. by rewrite <- app_assoc. }
  unfold bind at 1, array_min, ret. unfold bind at 1, array_max. simpl.
  destruct (score_loop (foldl Qmin x xs) (foldl Qmax x xs - foldl Qmin x xs)
              (found_nodes model (nodes_of (graph s))) (x :: xs) preds ∅ ∅) as [cs fl] eqn:Hsl.
  unfold bind at 1, graph_nodes at 1. unfold bind at 1.
  rewrite ground_truth_loop_read.
  assert (Hg : graph s1 = graph s) by (unfold preserves in Hp1; simpl in Hp1; tauto).
  rewrite Hg.
  destruct (read_labels (graph s) (nodes_of (graph s)) ∅) as [e|gt]; simpl.
  - rewrite Hlog. by rewrite <- app_assoc.
  - rewrite Hlog. by rewrite <- app_assoc.
Qed.

Lemma missing_warnings_level wv nodes :
  Forall (fun rec => rec.1 = WARNING) (missing_warnings wv nodes).
Proof. unfold missing_warnings. apply Forall_fmap, Forall_forall. done. Qed.

Lemma found_embeddings_nil_nodes wv : found_embeddings wv [] = [].
Proof. done. Qed.

(** X9.  An exception raised by walk generation, Word2Vec training,
    [decision_function] or [predict] is logged: the run appends the
    warnings for the nodes without an embedding and then one ERROR record
    that carries the exception's message. *)
Theorem detect_logs_library_exception B s e ws :
  library_raises B s e ws ->
  log (detect B s).2
  = log s ++ ws ++ [(ERROR, "Error in Node2Vec detection: " +:+ exc_str e)] /\
  Forall (fun rec => rec.1 = WARNING) ws.
Proof.
  intros H. rewrite detect_log_run. unfold detect_log.
  destruct H as [forest e rng1 Hn Hf H1 | forest walks rng1 e rng2 Hn Hf H1 H2
                | forest walks rng1 model rng2 e Hf H1 H2 Hne H3
                | forest walks rng1 model rng2 scores e Hf H1 H2 Hne H3 H4].
  - destruct (nodes_of (graph s)); [done|]. rewrite Hf, H1. by split.
  - destruct (nodes_of (graph s)); [done|]. rewrite Hf, H1, H2. by split.
  - destruct (nodes_of (graph s)) as [|n0 ns] eqn:Hn; [done|].
    rewrite Hf, H1, H2.
    destruct (found_embeddings model (n0 :: ns)); [done|]. rewrite H3.
    split; [done | apply missing_warnings_level].
  - destruct (nodes_of (graph s)) as [|n0 ns] eqn:Hn; [done|].
    rewrite Hf, H1, H2.
    destruct (found_embeddings model (n0 :: ns)); [done|]. rewrite H3, H4.
    split; [done | apply missing_warnings_level].
Qed.

Lemma detect_logs_library_exception_witness :
  library_raises Toy.failing_backend (Toy.late_machine Toy.trained Toy.g3 1)
    (ValueError "walk generation failed") [] /\
  log (detect Toy.failing_backend (Toy.late_machine Toy.trained Toy.g3 1)).2
  = log (Toy.late_machine Toy.trained Toy.g3 1) ++ [] ++
    [(ERROR, "Error in Node2Vec detection: " +:+ exc_str (ValueError "walk generation failed"))] /\
  Forall (fun rec : LogLevel * string => rec.1 = WARNING) [].
Proof.
  assert (H : library_raises Toy.failing_backend (Toy.late_machine Toy.trained Toy.g3 1)
                (ValueError "walk generation failed") []).
  { eapply raises_in_walks; [discriminate | reflexivity | reflexivity]. }
  split; [exact H|].
  exact (detect_logs_library_exception Toy.failing_backend
           (Toy.late_machine Toy.trained Toy.g3 1) _ _ H).
Defined.

(** The message of a [KeyError] is the [repr] of its key. *)
Example detect_logs_key_error :
  log (detect Toy.missing_key_backend (Toy.machine Toy.trained Toy.g3 1)).2
  = [(ERROR, "Error in Node2Vec detection: 'missing'")].
Proof. vm_compute. reflexivity. Qed.

Lemma labels_from_read_labels g nodes acc gt :
  labels_from g nodes acc = Some gt -> read_labels g nodes acc = inr gt.
Proof.
  revert acc. induction nodes as [|node rest IH]; intros acc H.
  - injection H as <-. done.
  - unfold labels_from in H. fold labels_from in H. unfold label_of in H.
    unfold read_labels. fold read_labels.
    destruct (node_data_of (node_table g) node) as [node_data|]; [|done].
    destruct (node_data !! "uav") as [[u|r]|]; [by apply IH | done | by apply IH].
Qed.

(** X10.  A run that returns a non-empty result logs no error: it appends
    one WARNING record for each node without an embedding in the Word2Vec
    vectors of the run, in node order, followed by one DEBUG record that
    states the number of flagged identities of the result. *)
Theorem detect_logs_anomaly_count B s r s' :
  detect B s = (inr r, s') ->
  ~ is_empty_result r ->
  exists walks rng1 model rng2,
    Node2Vec B (graph s) (node2vec_args (self s)) (global_rng s) = (inr walks, rng1) /\
    node2vec_fit B (node2vec_args (self s)) walks 10 1 4 rng1 = (inr model, rng2) /\
    log s'
    = log s
      ++ ((fun node => (WARNING, "No embedding for node " +:+ str node))
            <$> filter (fun node => model !! str node = None) (nodes_of (graph s)))
      ++ [(DEBUG, "Node2Vec detection: "
                  +:+ pretty (size (anomalous_uav_ids r)) +:+ " anomalies detected")].
Proof.
  intros H Hne.
  destruct (detect_nonempty_payload B s r s' H Hne)
    as (nl & x & xs & pr & gt & Hb & Hl & Ha & _).
  pose proof (detect_log_run B s) as Hlog. rewrite H in Hlog. simpl in Hlog.
  rewrite Hlog, Ha. clear Hlog Ha H Hne.
  unfold detect_log. unfold detect_batch in Hb.
  destruct (nodes_of (graph s)) as [|n0 ns] eqn:Hn; [done|].
  destruct (isolation_forest (self s)) as [forest|]; [|done].
  destruct (Node2Vec B (graph s) (node2vec_args (self s)) (global_rng s))
    as [[e|walks] rng1] eqn:E1; [done|].
  destruct (node2vec_fit B (node2vec_args (self s)) walks 10 1 4 rng1)
    as [[e|model] rng2] eqn:E2; [done|].
  destruct (found_embeddings model (n0 :: ns)) as [|e0 el]; [done|].
  destruct (decision_function forest (e0 :: el)) as [e|scores]; [done|].
  destruct (predict forest (e0 :: el)) as [e|preds]; [done|].
  injection Hb as <- -> <-.
  rewrite (labels_from_read_labels _ _ _ _ Hl).
  exists walks, rng1, model, rng2. unfold missing_warnings. done.
Qed.

Lemma detect_logs_anomaly_count_witness :
  detect Toy.sparse_backend (Toy.late_machine Toy.trained Toy.g3 5)
  = (inr (Toy.result_of Toy.run_sparse), Toy.run_sparse.2) /\
  ~ is_empty_result (Toy.result_of Toy.run_sparse) /\
  exists walks rng1 model rng2,
    Node2Vec Toy.sparse_backend (graph (Toy.late_machine Toy.trained Toy.g3 5))
      (node2vec_args (self (Toy.late_machine Toy.trained Toy.g3 5)))
      (global_rng (Toy.late_machine Toy.trained Toy.g3 5)) = (inr walks, rng1) /\
    node2vec_fit Toy.sparse_backend
      (node2vec_args (self (Toy.late_machine Toy.trained Toy.g3 5))) walks 10 1 4 rng1
    = (inr model, rng2) /\
    log Toy.run_sparse.2
    = log (Toy.late_machine Toy.trained Toy.g3 5)
      ++ ((fun node => (WARNING, "No embedding for node " +:+ str node))
            <$> filter (fun node => model !! str node = None)
                  (nodes_of (graph (Toy.late_machine Toy.trained Toy.g3 5))))
      ++ [(DEBUG, "Node2Vec detection: "
                  +:+ pretty (size (anomalous_uav_ids (Toy.result_of Toy.run_sparse)))
                  +:+ " anomalies detected")].
Proof.
  assert (H : detect Toy.sparse_backend (Toy.late_machine Toy.trained Toy.g3 5)
              = (inr (Toy.result_of Toy.run_sparse), Toy.run_sparse.2))
    by (vm_compute; reflexivity).
  split; [exact H|]. split; [exact toy_sparse_result_not_empty|].
  exact (detect_logs_anomaly_count Toy.sparse_backend
           (Toy.late_machine Toy.trained Toy.g3 5) _ _ H toy_sparse_result_not_empty).
Defined.

(* ===================================================================== *)
(** ** Further properties of [train] *)
(* ===================================================================== *)

Lemma train_outcome_baseline_graphs B clean_graphs d rng :
  baseline_graphs (train_outcome B clean_graphs d rng).1 = clean_graphs.
Proof.
  unfold train_outcome. destruct (last clean_graphs) as [g|]; [|done].
  by rewrite train_on_baseline_graphs.
Qed.

Lemma train_on_hyper_parameters B g d rng :
  hyper_parameters (train_on B g d rng).1 = hyper_parameters d.
Proof.
  unfold train_on.
  destruct (nodes_of g); [done|].
  destruct (Node2Vec B g (node2vec_args d) rng) as [[e|walks] rng1]; [done|].
  destruct (node2vec_fit B (node2vec_args d) walks 10 1 4 rng1) as [[e|model] rng2]; [done|].
  destruct (found_embeddings model _); [done|].
  by destruct (IsolationForest_fit B 100 (contamination d) 42 _).
Qed.

(** X11.  [train] never raises, whatever the libraries do, and it always
    records the sequence it was given in [baseline_graphs], also when the
    sequence is empty or the training fails. *)
Theorem train_never_raises B clean_graphs s :
  exists s', train B clean_graphs s = (inr tt, s') /\
             baseline_graphs (self s') = clean_graphs.
Proof.
  destruct (train_run B clean_graphs s) as (s' & H & Hs & _).
  exists s'. split; [done|]. by rewrite Hs, train_outcome_baseline_graphs.
Qed.

(** X12.  [train] leaves the hyper-parameters of the detector, the graph
    under analysis and the clock as they are; it never reads the clock. *)
Theorem train_keeps_hyper_parameters B clean_graphs s :
  hyper_parameters (self (train B clean_graphs s).2) = hyper_parameters (self s) /\
  graph (train B clean_graphs s).2 = graph s /\
  wall_clock (train B clean_graphs s).2 = wall_clock s /\
  ticks (train B clean_graphs s).2 = ticks s.
Proof.
  destruct (train_run B clean_graphs s) as (s' & H & Hs & _ & Hg & Hc & Ht).
  rewrite H. simpl. rewrite Hs. repeat split; try done.
  unfold train_outcome. destruct (last clean_graphs) as [g|]; [|done].
  by rewrite train_on_hyper_parameters.
Qed.

(** X13.  When a library call raises while training on a last graph that
    has nodes, the detector is left without a forest, even if it had one
    before, and every later [detect] of that detector returns an empty
    result. *)
Theorem train_failure_resets_forest B clean_graphs g s :
  last clean_graphs = Some g ->
  nodes_of g <> [] ->
  training_raises B g (self s) (global_rng s) ->
  exists s1,
    train B clean_graphs s = (inr tt, s1) /\
    isolation_forest (self s1) = None /\
    forall s2, self s2 = self s1 ->
      exists r s3, detect B s2 = (inr r, s3) /\ is_empty_result r.
Proof.
  intros Hlast Hn Hraise.
  destruct (train_run B clean_graphs s) as (s1 & H1 & Hs1 & _).
  exists s1. split; [done|].
  assert (Hf : isolation_forest (self s1) = None).
  { rewrite Hs1. unfold train_outcome. rewrite Hlast. unfold train_on.
    change (node2vec_args (with_baseline_graphs clean_graphs (self s)))
      with (node2vec_args (self s)).
    cbn [with_baseline_graphs contamination baseline_embeddings].
    destruct (nodes_of g) as [|n0 ns] eqn:Hnodes; [done|].
    destruct Hraise as [e rng1 E1 | walks rng1 e rng2 E1 E2
                       | walks rng1 model rng2 e E1 E2 Hne E3].
    - by rewrite E1.
    - by rewrite E1, E2.
    - rewrite E1, E2. rewrite Hnodes in Hne, E3.
      destruct (found_embeddings model (n0 :: ns)); [by destruct Hne|]. by rewrite E3. }
  split; [done|]. intros s2 Hs2.
  destruct (detect_run B s2) as (s3 & H3 & _).
  eexists _, s3. split; [exact H3|].
  unfold is_empty_result. simpl. unfold detect_payload, detect_batch.
  rewrite Hs2, Hf. by destruct (nodes_of (graph s2)).
Qed.

Lemma train_failure_resets_forest_witness :
  last [Toy.g0; Toy.g3] = Some Toy.g3 /\
  nodes_of Toy.g3 <> [] /\
  training_raises Toy.unfit_backend Toy.g3
    (self (Toy.machine Toy.trained Toy.g0 1))
    (global_rng (Toy.machine Toy.trained Toy.g0 1)) /\
  exists s1,
    train Toy.unfit_backend [Toy.g0; Toy.g3] (Toy.machine Toy.trained Toy.g0 1)
    = (inr tt, s1) /\
    isolation_forest (self s1) = None /\
    forall s2, self s2 = self s1 ->
      exists r s3, detect Toy.unfit_backend s2 = (inr r, s3) /\ is_empty_result r.
Proof.
  assert (Hn : nodes_of Toy.g3 <> []) by discriminate.
  assert (Hr : training_raises Toy.unfit_backend Toy.g3
                 (self (Toy.machine Toy.trained Toy.g0 1))
                 (global_rng (Toy.machine Toy.trained Toy.g0 1))).
  { eapply training_forest_raises; [reflexivity | reflexivity | | reflexivity].
    vm_compute. discriminate. }
  split; [reflexivity|]. split; [exact Hn|]. split; [exact Hr|].
  exact (train_failure_resets_forest Toy.unfit_backend [Toy.g0; Toy.g3] Toy.g3
           (Toy.machine Toy.trained Toy.g0 1) eq_refl Hn Hr).
Defined.

(** X14.  When walk generation and Word2Vec training succeed on the last
    graph, at least one of its nodes has an embedding, and the isolation
    forest (100 estimators, the detector's contamination, random state 42)
    can be fitted on the embeddings found, [train] stores that forest and
    the Word2Vec vectors in the detector, whatever forest it held before. *)
Theorem train_fits_forest B clean_graphs g s walks rng1 model rng2 forest :
  last clean_graphs = Some g ->
  Node2Vec B g (node2vec_args (self s)) (global_rng s) = (inr walks, rng1) ->
  node2vec_fit B (node2vec_args (self s)) walks 10 1 4 rng1 = (inr model, rng2) ->
  found_embeddings model (nodes_of g) <> [] ->
  IsolationForest_fit B 100 (contamination (self s)) 42 (found_embeddings model (nodes_of g))
  = inr forest ->
  exists s',
    train B clean_graphs s = (inr tt, s') /\
    isolation_forest (self s') = Some forest /\
    node2vec_model (self s') = Some model /\
    global_rng s' = rng2.
Proof.
  intros Hlast E1 E2 Hne E3.
  destruct (train_run B clean_graphs s) as (s' & H & Hs & Hr & _).
  exists s'. split; [done|]. rewrite Hs, Hr. unfold train_outcome. rewrite Hlast.
  unfold train_on.
  change (node2vec_args (with_baseline_graphs clean_graphs (self s)))
    with (node2vec_args (self s)).
  cbn [with_baseline_graphs contamination baseline_embeddings].
  destruct (nodes_of g) as [|n0 ns] eqn:Hnodes; [by destruct Hne|].
  rewrite E1, E2.
  destruct (found_embeddings model (n0 :: ns)) as [|e0 el]; [by destruct Hne|].
  by rewrite E3.
Qed.

Lemma train_fits_forest_witness :
  last [Toy.g0; Toy.g3] = Some Toy.g3 /\
  Node2Vec Toy.backend Toy.g3
    (node2vec_args (self (Toy.machine Toy.trained Toy.g0 2)))
    (global_rng (Toy.machine Toy.trained Toy.g0 2))
  = (inr [["a"]; ["bb"]; ["ghost"]], 2%Z) /\
  node2vec_fit Toy.backend (node2vec_args (self (Toy.machine Toy.trained Toy.g0 2)))
    [["a"]; ["bb"]; ["ghost"]] 10 1 4 2
  = (inr (list_to_map (omap (Toy.embed 2) [["a"]; ["bb"]; ["ghost"]])), 3%Z) /\
  found_embeddings (list_to_map (omap (Toy.embed 2) [["a"]; ["bb"]; ["ghost"]]))
    (nodes_of Toy.g3) <> [] /\
  IsolationForest_fit Toy.backend 100
    (contamination (self (Toy.machine Toy.trained Toy.g0 2))) 42
    (found_embeddings (list_to_map (omap (Toy.embed 2) [["a"]; ["bb"]; ["ghost"]]))
       (nodes_of Toy.g3))
  = inr (Toy.forest (inject_Z 42 / 10)) /\
  exists s',
    train Toy.backend [Toy.g0; Toy.g3] (Toy.machine Toy.trained Toy.g0 2) = (inr tt, s') /\
    isolation_forest (self s') = Some (Toy.forest (inject_Z 42 / 10)) /\
    node2vec_model (self s')
    = Some (list_to_map (omap (Toy.embed 2) [["a"]; ["bb"]; ["ghost"]])) /\
    global_rng s' = 3%Z.
Proof.
  assert (Hne : found_embeddings
                  (list_to_map (omap (Toy.embed 2) [["a"]; ["bb"]; ["ghost"]]))
                  (nodes_of Toy.g3) <> []) by (vm_compute; discriminate).
  split; [reflexivity|]. split; [reflexivity|]. split; [reflexivity|].
  split; [exact Hne|]. split; [reflexivity|].
  exact (train_fits_forest Toy.backend [Toy.g0; Toy.g3] Toy.g3
           (Toy.machine Toy.trained Toy.g0 2) _ _ _ _ _
           eq_refl eq_refl eq_refl Hne eq_refl).
Defined.

Lemma train_on_baseline_dom B g d rng :
  dom (baseline_embeddings d) ⊆ dom (baseline_embeddings (train_on B g d rng).1).
Proof.
  unfold train_on.
  destruct (nodes_of g) as [|n0 ns]; [done|].
  destruct (Node2Vec B g (node2vec_args d) rng) as [[e|walks] rng1]; [done|].
  destruct (node2vec_fit B (node2vec_args d) walks 10 1 4 rng1) as [[e|model] rng2]; [done|].
  assert (Hsub : dom (baseline_embeddings d)
                 ⊆ dom (learn_baseline model (n0 :: ns) (baseline_embeddings d))).
  { intros k Hk. apply elem_of_dom in Hk as [e Hk]. apply elem_of_dom.
    rewrite learn_baseline_lookup.
    destruct (if decide (k ∈ n0 :: ns) then model !! k else None); by eauto. }
  destruct (found_embeddings model (n0 :: ns)); [done|].
  by destruct (IsolationForest_fit B 100 (contamination d) 42 _).
Qed.

(** X15.  [train] never forgets a baseline embedding: every key of
    [baseline_embeddings] before the call is still a key after it, also
    when the training fails. *)
Theorem train_keeps_baseline_keys B clean_graphs s :
  dom (baseline_embeddings (self s))
  ⊆ dom (baseline_embeddings (self (train B clean_graphs s).2)).
Proof.
  destruct (train_run B clean_graphs s) as (s' & H & Hs & _).
  rewrite H. simpl. rewrite Hs. unfold train_outcome.
  destruct (last clean_graphs) as [g|]; [|done].
  etrans; [|apply train_on_baseline_dom]. done.
Qed.

(** X16.  When walk generation and Word2Vec training succeed on the last
    graph, [baseline_embeddings] afterwards maps every node of that graph
    that has an embedding to this embedding, and is unchanged at every
    other key; this holds whether or not the forest can be fitted. *)
Theorem train_updates_baseline_embeddings B clean_graphs g s walks rng1 model rng2 :
  last clean_graphs = Some g ->
  Node2Vec B g (node2vec_args (self s)) (global_rng s) = (inr walks, rng1) ->
  node2vec_fit B (node2vec_args (self s)) walks 10 1 4 rng1 = (inr model, rng2) ->
  nodes_of g <> [] ->
  forall key,
    baseline_embeddings (self (train B clean_graphs s).2) !! key
    = match (if decide (key ∈ nodes_of g) then model !! key else None) with
      | Some e => Some e
      | None => baseline_embeddings (self s) !! key
      end.
Proof.
  intros Hlast E1 E2 Hn key.
  destruct (train_run B clean_graphs s) as (s' & H & Hs & _).
  rewrite H. simpl. rewrite Hs. unfold train_outcome. rewrite Hlast.
  unfold train_on.
  change (node2vec_args (with_baseline_graphs clean_graphs (self s)))
    with (node2vec_args (self s)).
  cbn [with_baseline_graphs contamination baseline_embeddings].
  destruct (nodes_of g) as [|n0 ns] eqn:Hnodes; [done|].
  rewrite E1, E2.
  destruct (found_embeddings model (n0 :: ns));
    [|destruct (IsolationForest_fit B 100 (contamination (self s)) 42 _)];
    simpl; apply learn_baseline_lookup.
Qed.

Lemma train_updates_baseline_embeddings_witness :
  last [Toy.g3] = Some Toy.g3 /\
  Node2Vec Toy.unfit_backend Toy.g3
    (node2vec_args (self (Toy.machine default_detector Toy.g0 2)))
    (global_rng (Toy.machine default_detector Toy.g0 2))
  = (inr [["a"]; ["bb"]; ["ghost"]], 2%Z) /\
  node2vec_fit Toy.unfit_backend (node2vec_args (self (Toy.machine default_detector Toy.g0 2)))
    [["a"]; ["bb"]; ["ghost"]] 10 1 4 2
  = (inr (list_to_map (omap (Toy.embed 2) [["a"]; ["bb"]; ["ghost"]])), 3%Z) /\
  nodes_of Toy.g3 <> [] /\
  forall key,
    baseline_embeddings
      (self (train Toy.unfit_backend [Toy.g3] (Toy.machine default_detector Toy.g0 2)).2)
    !! key
    = match (if decide (key ∈ nodes_of Toy.g3)
             then (list_to_map (omap (Toy.embed 2) [["a"]; ["bb"]; ["ghost"]])
                   : gmap string (list Q)) !! key
             else None) with
      | Some e => Some e
      | None => baseline_embeddings (self (Toy.machine default_detector Toy.g0 2)) !! key
      end.
Proof.
  assert (Hn : nodes_of Toy.g3 <> []) by discriminate.
  split; [reflexivity|]. split; [reflexivity|]. split; [reflexivity|].
  split; [exact Hn|].
  exact (train_updates_baseline_embeddings Toy.unfit_backend [Toy.g3] Toy.g3
           (Toy.machine default_detector Toy.g0 2) _ _ _ _
           eq_refl eq_refl eq_refl Hn).
Defined.

(* ===================================================================== *)
(** ** Properties of the attack callback *)
(* ===================================================================== *)

Lemma alternating_app fl t1 t2 fl1 :
  alternating fl t1 = Some fl1 -> alternating fl (t1 ++ t2) = alternating fl1 t2.
Proof.
  revert fl. induction t1 as [|[t|t] t1 IH]; intros fl H; simpl in *.
  - by injection H as ->.
  - destruct fl; [done | by apply IH].
  - destruct fl; [by apply IH | done].
Qed.

Lemma inject_attack_callback_alternating is_active start_time duration t fl :
  alternating fl (inject_attack_callback is_active start_time duration t fl).1
  = Some (inject_attack_callback is_active start_time duration t fl).2.
Proof.
  unfold inject_attack_callback.
  destruct (is_active t), fl, (Qle_bool (start_time + duration) t); reflexivity.
Qed.

(** X17.  Whatever the scenario and the simulation times, the callback
    alternates its calls to the injector: phantoms are injected only when
    none are in the swarm and removed only after an injection, and the
    flag tells at every moment whether phantoms are in. *)
Theorem callback_frames_alternate is_active start_time duration times attack_injected :
  alternating attack_injected
    (callback_frames is_active start_time duration times attack_injected).1
  = Some (callback_frames is_active start_time duration times attack_injected).2.
Proof.
  revert attack_injected. induction times as [|t rest IH]; intros fl; [done|].
  simpl.
  pose proof (inject_attack_callback_alternating is_active start_time duration t fl) as H1.
  destruct (inject_attack_callback is_active start_time duration t fl) as [ev fl1].
  specialize (IH fl1).
  destruct (callback_frames is_active start_time duration rest fl1) as [later fl2].
  simpl in *. by rewrite (alternating_app _ _ _ _ H1).
Qed.

Lemma callback_frames_after_end is_active start_time duration times :
  (forall t, is_active t = true -> (t < start_time + duration)%Q) ->
  Forall (fun t => (start_time + duration <= t)%Q) times ->
  callback_frames is_active start_time duration times false = ([], false).
Proof.
  intros Hact Hall. induction Hall as [|t rest Ht _ IH]; [done|].
  simpl. unfold inject_attack_callback.
  destruct (is_active t) eqn:Ha.
  { apply Hact in Ha. exfalso. apply (Qlt_not_le _ _ Ha Ht). }
  simpl. rewrite andb_false_r. simpl. by rewrite IH.
Qed.

Lemma callback_frames_injected is_active start_time duration times :
  (forall t, is_active t = true -> (t < start_time + duration)%Q) ->
  StronglySorted Qle times ->
  callback_frames is_active start_time duration times true = ([], true) \/
  exists t, (start_time + duration <= t)%Q /\
            callback_frames is_active start_time duration times true
            = ([RemovePhantoms t], false).
Proof.
  intros Hact Hsorted. induction Hsorted as [|t rest Hs IH Hle]; [by left|].
  simpl. unfold inject_attack_callback. rewrite andb_false_r. simpl.
  destruct (Qle_bool (start_time + duration) t) eqn:Hend; simpl.
  - right. exists t. apply Qle_bool_iff in Hend. split; [done|].
    rewrite callback_frames_after_end; [done | done |].
    eapply Forall_impl; [exact Hle|]. intros t' Ht'. simpl in Ht'.
    by eapply Qle_trans.
  - destruct IH as [-> | (t' & Ht' & ->)]; [by left | right; by exists t'].
Qed.

(** X18.  When the scenario is active only before [start_time + duration]
    and the simulation times do not decrease, the attack is injected at
    most once and removed at most once: all the calls to the injector are
    at most one injection, at a time when the scenario is active, followed
    by at most one removal, at a time from [start_time + duration] on. *)
Theorem callback_frames_inject_once is_active start_time duration times :
  (forall t, is_active t = true -> (t < start_time + duration)%Q) ->
  StronglySorted Qle times ->
  (callback_frames is_active start_time duration times false).1 = [] \/
  (exists t, is_active t = true /\
     (callback_frames is_active start_time duration times false).1 = [InjectPhantoms t]) \/
  (exists t t', is_active t = true /\ (start_time + duration <= t')%Q /\
     (callback_frames is_active start_time duration times false).1
     = [InjectPhantoms t; RemovePhantoms t']).
Proof.
  intros Hact Hsorted. induction Hsorted as [|t rest Hs IH Hle]; [by left|].
  simpl. unfold inject_attack_callback.
  destruct (is_active t) eqn:Ha; simpl.
  - assert (Hend : Qle_bool (start_time + duration) t = false).
    { apply not_true_is_false. intros Hc. apply Qle_bool_iff in Hc.
      apply Hact in Ha. apply (Qlt_not_le _ _ Ha Hc). }
    rewrite Hend. simpl.
    destruct (callback_frames_injected is_active start_time duration rest Hact Hs)
      as [-> | (t' & Ht' & ->)]; simpl.
    + right. left. by exists t.
    + right. right. by exists t, t'.
  - rewrite andb_false_r. simpl.
    destruct (callback_frames is_active start_time duration rest false) as [later fl].
    apply IH.
Qed.

Lemma callback_frames_inject_once_witness :
  (forall t, scenario_is_active 15 20 t = true -> (t < 15 + 20)%Q) /\
  StronglySorted Qle [0; 14; 15; 16; 34; 35; 36]%Q /\
  ((callback_frames (scenario_is_active 15 20) 15 20 [0; 14; 15; 16; 34; 35; 36]%Q false).1
   = [] \/
   (exists t, scenario_is_active 15 20 t = true /\
      (callback_frames (scenario_is_active 15 20) 15 20
         [0; 14; 15; 16; 34; 35; 36]%Q false).1 = [InjectPhantoms t]) \/
   (exists t t', scenario_is_active 15 20 t = true /\ (15 + 20 <= t')%Q /\
      (callback_frames (scenario_is_active 15 20) 15 20
         [0; 14; 15; 16; 34; 35; 36]%Q false).1
      = [InjectPhantoms t; RemovePhantoms t'])).
Proof.
  assert (Hact : forall t, scenario_is_active 15 20 t = true -> (t < 15 + 20)%Q).
  { intros t H. unfold scenario_is_active in H.
    apply andb_true_iff in H as [_ H]. apply negb_true_iff in H.
    apply Qnot_le_lt. intros Hc. apply Qle_bool_iff in Hc. congruence. }
  assert (Hs : StronglySorted Qle [0; 14; 15; 16; 34; 35; 36]%Q).
  { repeat (apply SSorted_cons; [|repeat (apply Forall_cons; split; [discriminate|]);
                                  apply Forall_nil_2]).
    apply SSorted_nil. }
  split; [exact Hact|]. split; [exact Hs|].
  exact (callback_frames_inject_once (scenario_is_active 15 20) 15 20
           [0; 14; 15; 16; 34; 35; 36]%Q Hact Hs).
Defined.

(** On the timeline of the example (attack from 15 for 20) the phantoms go
    in at 15 and out at 35. *)
Example callback_frames_timeline :
  callback_frames (scenario_is_active 15 20) 15 20 [0; 14; 15; 16; 34; 35; 36]%Q false
  = ([InjectPhantoms 15; RemovePhantoms 35], false).
Proof. reflexivity. Qed.
